(** * Shadowrun randomizer, web front end: codec, validator, page controller,
      worker dispatcher and packager.

    A shallow embedding of [web_interface.js] and [web_worker.js]
    (including the Python fragment the worker runs inside Pyodide), with the
    properties of the specification stated and proved over it.

    Conventions.
    - A [Uint8Array] is a [list Z]; that its elements are bytes is the
      predicate [is_bytes].
    - JavaScript numbers that only ever hold small integers are [Z]; the
      32-bit bitwise operators are written out with their wrap-around.
    - A JavaScript or Python string is a Rocq [string], one character per
      code unit; code units above 255 are not represented (the two status
      icons, U+2713 and U+2717, are spelled in UTF-8).  Where the script
      builds a string from numbers ([String.fromCharCode]) the string is
      the list of its UTF-16 code units.
    - [localStorage] is a [gmap string string]; a [classList] is a
      [gset string].
    - A script that reads and writes the page is a function from the page
      to an outcome: a value or a thrown exception, with the page it left. *)

From Stdlib Require Import ZArith Lia Ascii String DecimalString.
From stdpp Require Import base list strings gmap.

Local Open Scope Z_scope.

(** ** Fragments of the JavaScript semantics the scripts rely on *)

Module JS.

(** ToInt32 of an integral number. *)
Definition ToInt32 (z : Z) : Z := (z + 2 ^ 31) mod 2 ^ 32 - 2 ^ 31.

(** The bitwise operators [&], [|], [<<] and [>>] on numbers. *)
Definition band (a b : Z) : Z := ToInt32 (Z.land (ToInt32 a) (ToInt32 b)).
Definition bor (a b : Z) : Z := ToInt32 (Z.lor (ToInt32 a) (ToInt32 b)).
Definition shl (a n : Z) : Z := ToInt32 (Z.shiftl (ToInt32 a) (n mod 32)).
Definition sar (a n : Z) : Z := Z.shiftr (ToInt32 a) (n mod 32).

(** [a[i]] on an array of numbers: [None] is [undefined]. *)
Definition index (a : list Z) (i : Z) : option Z :=
  if i <? 0 then None else a !! Z.to_nat i.

(** ToInt32 of an array element: [undefined] converts to [0]. *)
Definition int32_of (v : option Z) : Z := default 0 v.

(** [s[i]] on a string: the character at that position, or [undefined]. *)
Definition charAt (s : string) (i : Z) : option ascii :=
  if i <? 0 then None else String.get (Z.to_nat i) s.

(** [a.join("")] on an array whose cells are one-character strings,
    [undefined] or holes: the latter two contribute the empty string. *)
Definition join (a : list (option ascii)) : string :=
  foldr (fun c s => match c with Some ch => String ch s | None => s end)
        EmptyString a.

(** [TypedArray.prototype.slice(first, last)]: negative arguments count
    from the end, and both are clamped to the array. *)
Definition slice (a : list Z) (first last : Z) : list Z :=
  let len := Zlength a in
  let rel x := if x <? 0 then Z.max (len + x) 0 else Z.min x len in
  let k := rel first in
  let final := rel last in
  take (Z.to_nat (Z.max (final - k) 0)) (drop (Z.to_nat k) a).

(** The code units of a text literal. *)
Definition code_units (s : string) : list Z :=
  map (fun c => Z.of_N (N_of_ascii c)) (list_ascii_of_string s).

(** [String.fromCharCode(...a)]: each number taken modulo 2^16. *)
Definition fromCharCode (a : list Z) : list Z :=
  map (fun c => c mod 65536) a.

End JS.

Infix ".&" := JS.band (at level 42, left associativity).
Infix ".|" := JS.bor (at level 44, left associativity).
Infix ".<<" := JS.shl (at level 41, left associativity).
Infix ".>>" := JS.sar (at level 41, left associativity).

(** The elements of a [Uint8Array] are bytes. *)
Definition is_bytes (a : list Z) : Prop := Forall (fun b => 0 <= b < 256) a.

(** ** Binary to text: [bytesToBase64] *)

Definition alphabet : string :=
  "ABCDEFGHIJKLMNOPQRSTUVWXYZabcdefghijklmnopqrstuvwxyz0123456789+/" +:+ "=".

Definition PADDING_INDEX : Z := Z.of_nat (String.length alphabet) - 1.

(** The four 6-bit indices (or the padding index) that one pass of the loop
    leaves in [base64[4*i .. 4*i+3]] before they are turned into
    characters.  [bytes[k]] is read through ToInt32, as [&] does. *)
Definition group_indices (bytes : list Z) (i : nat) : Z * Z * Z * Z :=
  let rd k := JS.int32_of (bytes !! k) in
  (* 1st input byte *)
  let c0 := (rd (3 * i + 0)%nat .& 0xFC) .>> 2 in
  let c1 := (rd (3 * i + 0)%nat .& 0x03) .<< 4 in
  (* 2nd input byte *)
  let '(c1, c2) :=
    if (3 * i + 1 <? length bytes)%nat
    then (c1 .| ((rd (3 * i + 1)%nat .& 0xF0) .>> 4),
          (rd (3 * i + 1)%nat .& 0x0F) .<< 2)
    else (c1, PADDING_INDEX) in
  (* 3rd input byte *)
  let '(c2, c3) :=
    if (3 * i + 2 <? length bytes)%nat
    then (c2 .| ((rd (3 * i + 2)%nat .& 0xC0) .>> 6),
          rd (3 * i + 2)%nat .& 0x3F)
    else (c2, PADDING_INDEX) in
  (c0, c1, c2, c3).

(** One pass of the loop body: the four cells of group [i] end up holding
    the characters [alphabet[c]] of the four indices. *)
Definition encode_pass (bytes : list Z) (i : nat)
    (base64 : list (option ascii)) : list (option ascii) :=
  let '(c0, c1, c2, c3) := group_indices bytes i in
  <[(4 * i + 3)%nat := JS.charAt alphabet c3]>
    (<[(4 * i + 2)%nat := JS.charAt alphabet c2]>
      (<[(4 * i + 1)%nat := JS.charAt alphabet c1]>
        (<[(4 * i + 0)%nat := JS.charAt alphabet c0]> base64))).

(** [for (let i = ...; 3*i < bytes.length; i++)], with the passes left as
    fuel. *)
Fixpoint encode_loop (fuel : nat) (bytes : list Z) (i : nat)
    (base64 : list (option ascii)) : list (option ascii) :=
  match fuel with
  | O => base64
  | S fuel' =>
      if (3 * i <? length bytes)%nat
      then encode_loop fuel' bytes (S i) (encode_pass bytes i base64)
      else base64
  end.

(** [Math.ceil(n / 3)] for an array length [n]. *)
Definition ceil_div3 (n : nat) : nat := ((n + 2) / 3)%nat.

Definition bytesToBase64 (bytes : list Z) : string :=
  let base64 := replicate (4 * ceil_div3 (length bytes)) None in
  JS.join (encode_loop (length bytes) bytes 0 base64).

(** ** Text to binary: [atob] and [base64ToBytes] *)

(** [atob] is the browser's; it is modelled after the forgiving-base64
    decode algorithm of the WHATWG Infra standard, which the HTML standard
    prescribes for it.  [None] is the [InvalidCharacterError] exception. *)
Module Atob.

Definition code (c : ascii) : Z := Z.of_N (N_of_ascii c).

(** ASCII whitespace: TAB, LF, FF, CR and SPACE. *)
Definition is_ascii_whitespace (c : ascii) : bool :=
  let n := code c in
  (n =? 9) || (n =? 10) || (n =? 12) || (n =? 13) || (n =? 32).

Definition is_pad (c : ascii) : bool := code c =? 61.

(** The position of a code point in the Base64 table of RFC 4648. *)
Definition value (c : ascii) : option Z :=
  let n := code c in
  if (65 <=? n) && (n <=? 90) then Some (n - 65)
  else if (97 <=? n) && (n <=? 122) then Some (n - 71)
  else if (48 <=? n) && (n <=? 57) then Some (n + 4)
  else if n =? 43 then Some 62
  else if n =? 47 then Some 63
  else None.

(** Remove one trailing [=], if there is one. *)
Definition drop_pad (data : list ascii) : list ascii :=
  match rev data with
  | c :: r => if is_pad c then rev r else data
  | [] => data
  end.

(** Step 2: a text whose length is a multiple of four loses one or two
    trailing [=]. *)
Definition strip_padding (data : list ascii) : list ascii :=
  if (length data mod 4 =? 0)%nat then drop_pad (drop_pad data) else data.

(** Steps 8 and 9: six bits are appended to the buffer per code point;
    24 accumulated bits are emitted as three bytes; 12 or 18 left-over
    bits lose their last four or two and are emitted as one or two
    bytes.  [nsym] counts the code points in the buffer. *)
Fixpoint decode_loop (data : list ascii) (buffer : Z) (nsym : nat)
    (output : list Z) : option (list Z) :=
  match data with
  | [] =>
      match nsym with
      | 0%nat => Some output
      | 2%nat => Some (output ++ [buffer / 16])
      | 3%nat => Some (output ++ [buffer / 4 / 256; buffer / 4 mod 256])
      | _ => None
      end
  | c :: rest =>
      match value c with
      | None => None
      | Some v =>
          let buffer := 64 * buffer + v in
          if (nsym =? 3)%nat
          then decode_loop rest 0 0%nat
                 (output ++ [buffer / 65536; buffer / 256 mod 256;
                             buffer mod 256])
          else decode_loop rest buffer (S nsym) output
      end
  end.

Definition forgiving_base64_decode (text : string) : option (list Z) :=
  let data :=
    filter (fun c => is_ascii_whitespace c = false)
           (list_ascii_of_string text) in
  let data := strip_padding data in
  if (length data mod 4 =? 1)%nat then None
  else if forallb (fun c => bool_decide (is_Some (value c))) data
  then decode_loop data 0 0%nat []
  else None.

(** [atob] returns the bytes as a string of code points below 256. *)
Definition atob (text : string) : option string :=
  (fun out => string_of_list_ascii
                (map (fun b => ascii_of_N (Z.to_N b)) out))
    <$> forgiving_base64_decode text.

End Atob.

(** [Uint8Array.from(binString, (m) => m.codePointAt(0))]. *)
Definition base64ToBytes (base64 : string) : option (list Z) :=
  (fun binString => map Atob.code (list_ascii_of_string binString))
    <$> Atob.atob base64.


(** ** The image validator: [isValidROM] *)

Definition goodName : string := "SHADOWRUN            ".
Definition goodChecksum : Z := 0xF834.

(** [a + b] where [a] is an array element: [undefined + b] is [NaN],
    written [None]. *)
Definition js_add (a : option Z) (b : Z) : option Z := (fun a => a + b) <$> a.

(** [x != y] on numbers: [NaN] differs from everything. *)
Definition js_ne (x : option Z) (y : Z) : bool :=
  match x with
  | Some x => negb (x =? y)
  | None => true
  end.

(** The body of [isValidROM], written once over the way the array is read:
    [read a i] is [a[i]] and [read_slice a first last] is
    [a.slice(first, last)], both in a monad [M]. *)
Section Validator.
Context {M : Type -> Type} `{!MRet M, !MBind M}.
Variable read : list Z -> Z -> M (option Z).
Variable read_slice : list Z -> Z -> Z -> M (list Z).

Definition isValidROM_in (romBytes : list Z) : M bool :=
  (* A valid ROM is 1,048,576 bytes long. *)
  if negb (Zlength romBytes =? 1048576) then mret false
  else
    (* A valid ROM's internal name is "SHADOWRUN            ". *)
    name_bytes ← read_slice romBytes 0x7FC0 0x7FD5;
    let romName := JS.fromCharCode name_bytes in
    if negb (bool_decide (romName = JS.code_units goodName)) then mret false
    else
      (* A valid ROM's internal checksum is 0xF834. *)
      lo ← read romBytes 0x7FDE;
      hi ← read romBytes 0x7FDF;
      let romChecksum := js_add lo (JS.int32_of hi .<< 8) in
      if js_ne romChecksum goodChecksum then mret false
      else
        (* If a candidate ROM passes all of the tests, consider it valid. *)
        mret true.

End Validator.

(** Plain evaluation. *)
Definition Id (A : Type) : Type := A.
#[local] Instance Id_ret : MRet Id := fun A x => x.
#[local] Instance Id_bind : MBind Id := fun A B f x => f x.

(** [isValidROM] under the semantics of JavaScript: a read outside the
    array yields [undefined], a slice is clamped. *)
Definition isValidROM (romBytes : list Z) : bool :=
  isValidROM_in (M := Id) JS.index JS.slice romBytes.

(** Bounds-checked reads: [None] when the position, or a part of the
    range, lies outside the array. *)
Definition checked_index (a : list Z) (i : Z) : option (option Z) :=
  if (0 <=? i) && (i <? Zlength a) then Some (JS.index a i) else None.

Definition checked_slice (a : list Z) (first last : Z) : option (list Z) :=
  if (0 <=? first) && (first <=? last) && (last <=? Zlength a)
  then Some (JS.slice a first last) else None.

(** [isValidROM] with every read bounds-checked: [None] means that some
    read fell outside the array. *)
Definition isValidROM_checked (romBytes : list Z) : option bool :=
  isValidROM_in (M := option) checked_index checked_slice romBytes.

(** The same with every read allowed only on an array of 1,048,576
    elements: [None] means that a read happened on another length, or
    outside the array. *)
Definition length_checked {A : Type} (a : list Z) (r : option A) : option A :=
  if Zlength a =? 1048576 then r else None.

Definition isValidROM_guarded (romBytes : list Z) : option bool :=
  isValidROM_in (M := option)
    (fun a i => length_checked a (checked_index a i))
    (fun a first last => length_checked a (checked_slice a first last))
    romBytes.

(** An image that satisfies the three conditions, all other bytes zero. *)
Definition zeros (n : Z) : list Z := replicate (Z.to_nat n) 0.

Definition goodROM : list Z :=
  zeros 0x7FC0 ++ JS.code_units goodName ++ zeros (0x7FDE - 0x7FD5)
  ++ [0x34; 0xF8] ++ zeros (1048576 - 0x7FE0).

(** The three conditions of the specification, in its own words: the
    length; the 21 bytes at offset 0x7FC0; the two bytes at 0x7FDE and
    0x7FDF read as a little-endian 16-bit integer. *)
Definition name_field (b : list Z) : list Z :=
  take 21 (drop (Z.to_nat 0x7FC0) b).

Definition le16_at (b : list Z) (off : Z) : option Z :=
  lo ← b !! Z.to_nat off;
  hi ← b !! Z.to_nat (off + 1);
  Some (lo + 256 * hi).

Definition valid_image (b : list Z) : Prop :=
  Zlength b = 1048576 /\
  name_field b = JS.code_units "SHADOWRUN" ++ replicate 12 32 /\
  le16_at b 0x7FDE = Some 0xF834.

(** The positions of the two fields. *)
Definition in_fields (i : nat) : Prop :=
  (Z.to_nat 0x7FC0 <= i < Z.to_nat 0x7FD5)%nat \/
  i = Z.to_nat 0x7FDE \/ i = Z.to_nat 0x7FDF.

(** ** The page: storage, the elements the script touches, the worker *)

(** Values a script can throw. *)
Inductive exn : Type :=
| DOMException (name : string)
| JSError (message : string).

#[local] Instance exn_eq_dec : EqDecision exn.
Proof. solve_decision. Defined.

(** The properties of an element that the script reads or writes. *)
Record element : Type := Element {
  classList : gset string;
  innerText : string;
  disabled : bool;
  value : string;
  checked : bool
}.

(** The message [generate] posts to the worker. *)
Record randomizerArgs : Type := RandomizerArgs {
  romBytes : list Z;
  seedString : string;
  itemDuplication : bool;
  spoilerLog : bool
}.

(** The state the interface script works on: [window.localStorage], the
    elements it looks up by id, the files chosen in the file input, and the
    messages posted to the worker so far. *)
Record page : Type := Page {
  localStorage : gmap string string;
  el_statusIcon : element;
  el_statusMessage : element;
  el_fileButton : element;
  el_generate : element;
  el_generateSpinner : element;
  el_generateText : element;
  el_seed : element;
  el_itemDuplication : element;
  el_spoilerLog : element;
  fileName_files : list (list Z);
  worker_posted : list randomizerArgs
}.

(** *** Property writes *)

Definition classList_remove (names : list string) (e : element) : element :=
  Element (classList e ∖ list_to_set names) (innerText e) (disabled e)
          (value e) (checked e).

Definition classList_add (name : string) (e : element) : element :=
  Element ({[name]} ∪ classList e) (innerText e) (disabled e)
          (value e) (checked e).

Definition set_innerText (text : string) (e : element) : element :=
  Element (classList e) text (disabled e) (value e) (checked e).

Definition set_disabled (b : bool) (e : element) : element :=
  Element (classList e) (innerText e) b (value e) (checked e).

Definition set_value (v : string) (e : element) : element :=
  Element (classList e) (innerText e) (disabled e) v (checked e).

Definition with_localStorage (f : gmap string string -> gmap string string)
    (p : page) : page :=
  Page (f (localStorage p)) (el_statusIcon p) (el_statusMessage p)
       (el_fileButton p) (el_generate p) (el_generateSpinner p)
       (el_generateText p) (el_seed p) (el_itemDuplication p)
       (el_spoilerLog p) (fileName_files p) (worker_posted p).

Definition on_statusIcon (f : element -> element) (p : page) : page :=
  Page (localStorage p) (f (el_statusIcon p)) (el_statusMessage p)
       (el_fileButton p) (el_generate p) (el_generateSpinner p)
       (el_generateText p) (el_seed p) (el_itemDuplication p)
       (el_spoilerLog p) (fileName_files p) (worker_posted p).

Definition on_statusMessage (f : element -> element) (p : page) : page :=
  Page (localStorage p) (el_statusIcon p) (f (el_statusMessage p))
       (el_fileButton p) (el_generate p) (el_generateSpinner p)
       (el_generateText p) (el_seed p) (el_itemDuplication p)
       (el_spoilerLog p) (fileName_files p) (worker_posted p).

Definition on_fileButton (f : element -> element) (p : page) : page :=
  Page (localStorage p) (el_statusIcon p) (el_statusMessage p)
       (f (el_fileButton p)) (el_generate p) (el_generateSpinner p)
       (el_generateText p) (el_seed p) (el_itemDuplication p)
       (el_spoilerLog p) (fileName_files p) (worker_posted p).

Definition on_generate (f : element -> element) (p : page) : page :=
  Page (localStorage p) (el_statusIcon p) (el_statusMessage p)
       (el_fileButton p) (f (el_generate p)) (el_generateSpinner p)
       (el_generateText p) (el_seed p) (el_itemDuplication p)
       (el_spoilerLog p) (fileName_files p) (worker_posted p).

Definition on_generateSpinner (f : element -> element) (p : page) : page :=
  Page (localStorage p) (el_statusIcon p) (el_statusMessage p)
       (el_fileButton p) (el_generate p) (f (el_generateSpinner p))
       (el_generateText p) (el_seed p) (el_itemDuplication p)
       (el_spoilerLog p) (fileName_files p) (worker_posted p).

Definition on_generateText (f : element -> element) (p : page) : page :=
  Page (localStorage p) (el_statusIcon p) (el_statusMessage p)
       (el_fileButton p) (el_generate p) (el_generateSpinner p)
       (f (el_generateText p)) (el_seed p) (el_itemDuplication p)
       (el_spoilerLog p) (fileName_files p) (worker_posted p).

Definition on_seed (f : element -> element) (p : page) : page :=
  Page (localStorage p) (el_statusIcon p) (el_statusMessage p)
       (el_fileButton p) (el_generate p) (el_generateSpinner p)
       (el_generateText p) (f (el_seed p)) (el_itemDuplication p)
       (el_spoilerLog p) (fileName_files p) (worker_posted p).

Definition postMessage (m : randomizerArgs) (p : page) : page :=
  Page (localStorage p) (el_statusIcon p) (el_statusMessage p)
       (el_fileButton p) (el_generate p) (el_generateSpinner p)
       (el_generateText p) (el_seed p) (el_itemDuplication p)
       (el_spoilerLog p) (fileName_files p) (worker_posted p ++ [m]).

(** *** Scripts: state passing with exceptions *)

Inductive outcome (A : Type) : Type :=
| Returns (a : A) (p : page)
| Throws (e : exn) (p : page).
Arguments Returns {A} a p.
Arguments Throws {A} e p.

Definition Script (A : Type) : Type := page -> outcome A.

#[local] Instance Script_ret : MRet Script := fun A a p => Returns a p.
#[local] Instance Script_bind : MBind Script := fun A B f m p =>
  match m p with
  | Returns a p' => f a p'
  | Throws e p' => Throws e p'
  end.

Definition get_page : Script page := fun p => Returns p p.
Definition modify (f : page -> page) : Script unit := fun p => Returns tt (f p).
Definition throw {A : Type} (e : exn) : Script A := fun p => Throws e p.

(** [try { body } catch (e) { handler }]. *)
Definition try_catch {A : Type} (body : Script A) (handler : exn -> Script A)
    : Script A :=
  fun p =>
    match body p with
    | Returns a p' => Returns a p'
    | Throws e p' => handler e p'
    end.

(** The page in which a script ended, however it ended. *)
Definition final_page {A : Type} (o : outcome A) : page :=
  match o with
  | Returns _ p => p
  | Throws _ p => p
  end.

(** *** [storageWrapper] *)

Definition keyNamePrefix : string := "shadowrun_randomizer".

Definition prefixed (keyName : string) : string :=
  keyNamePrefix +:+ "___" +:+ keyName.

Definition storageWrapper_getItem (keyName : string) : Script (option string) :=
  p ← get_page; mret (localStorage p !! prefixed keyName).

Definition storageWrapper_removeItem (keyName : string) : Script unit :=
  modify (with_localStorage (delete (prefixed keyName))).

(** What the browser's [Storage.setItem] does with a store, a key and a
    value: the store it leaves, and the exception it throws, if any.  The
    quota is the browser's, so the behaviour is a parameter. *)
Definition setItem_behaviour : Type :=
  gmap string string -> string -> string -> gmap string string * option exn.

Definition storageWrapper_setItem (backend : setItem_behaviour)
    (keyName keyValue : string) : Script unit :=
  p ← get_page;
  let '(store, failure) := backend (localStorage p) (prefixed keyName) keyValue in
  modify (with_localStorage (fun _ => store));;
  match failure with
  | Some e => throw e
  | None => mret tt
  end.

(** A store that accepts a value of at most [quota] characters and
    otherwise throws [QuotaExceededError], leaving the store as it was. *)
Definition quota_backend (quota : nat) : setItem_behaviour :=
  fun store key val =>
    if (String.length val <=? quota)%nat
    then (<[key := val]> store, None)
    else (store, Some (DOMException "QuotaExceededError")).

(** [atob] throws on text that is not Base64. *)
Definition base64ToBytes_script (base64 : string) : Script (list Z) :=
  match base64ToBytes base64 with
  | Some bytes => mret bytes
  | None => throw (DOMException "InvalidCharacterError")
  end.

(** *** [updateStatusMessage] *)

Definition CHECK_MARK : string := "✓".
Definition CROSS_MARK : string := "✗".

Definition updateStatusMessage (message textClass : string) : Script unit :=
  let textClasses := ["text-success"; "text-danger"] in
  modify (on_statusIcon (classList_remove textClasses));;
  (if bool_decide (textClass = "success") then
     modify (on_statusIcon (classList_add "text-success"));;
     modify (on_statusIcon (set_innerText CHECK_MARK));;
     modify (on_statusIcon (classList_remove ["d-none"]))
   else if bool_decide (textClass = "danger") then
     modify (on_statusIcon (classList_add "text-danger"));;
     modify (on_statusIcon (set_innerText CROSS_MARK));;
     modify (on_statusIcon (classList_remove ["d-none"]))
   else
     modify (on_statusIcon (classList_add "d-none"));;
     modify (on_statusIcon (set_innerText "")));;
  modify (on_statusMessage (set_innerText message)).

(** *** [updateFileButton] *)

Definition updateFileButton : Script unit :=
  let buttonClasses := ["btn-success"; "btn-danger"; "btn-warning"] in
  modify (on_fileButton (classList_remove buttonClasses));;
  romBase64 ← storageWrapper_getItem "rom_base64";
  match romBase64 with
  | Some romBase64 =>
      romBytes ← base64ToBytes_script romBase64;
      if isValidROM romBytes then
        modify (on_fileButton (classList_add "btn-success"));;
        modify (on_fileButton (set_innerText "Valid ROM selected"));;
        modify (on_generate (set_disabled false))
      else
        modify (on_fileButton (classList_add "btn-danger"));;
        modify (on_fileButton (set_innerText "Invalid ROM selected"));;
        modify (on_generate (set_disabled true))
  | None =>
      modify (on_fileButton (classList_add "btn-warning"));;
      modify (on_fileButton (set_innerText "No ROM selected"));;
      modify (on_generate (set_disabled true))
  end.

(** *** [changeFileName] and [clearFileName] *)

Definition changeFileName (backend : setItem_behaviour) : Script unit :=
  updateStatusMessage "" "";;
  p ← get_page;
  match fileName_files p with
  | fileBytes :: _ =>
      try_catch
        (storageWrapper_setItem backend "rom_base64" (bytesToBase64 fileBytes))
        (fun e =>
           if bool_decide (e = DOMException "QuotaExceededError") then
             storageWrapper_removeItem "rom_base64";;
             updateStatusMessage
               "Could not store ROM: localStorage quota exceeded" "danger"
           else throw e);;
      updateFileButton
  | [] => mret tt
  end.

Definition clearFileName : Script unit :=
  updateStatusMessage "" "";;
  storageWrapper_removeItem "rom_base64";;
  updateFileButton.

(** *** [newSeed] *)

(** A value of [Math.random()], a double in [0, 1), by its exact value
    [mantissa / 2 ^ exponent]. *)
Record unit_double : Type := UnitDouble { mantissa : Z; exponent : Z }.

Definition unit_double_wf (r : unit_double) : Prop :=
  0 <= exponent r /\ 0 <= mantissa r < 2 ^ exponent r.

(** [Math.trunc(r * 2**32)]: scaling by a power of two is exact, and
    [Math.trunc] rounds towards zero. *)
Definition trunc_scaled (r : unit_double) : Z :=
  Z.quot (mantissa r * 2 ^ 32) (2 ^ exponent r).

(** ToString of an integral number below 10^21 in absolute value: its
    decimal digits, after a minus sign if it is negative. *)
Definition Number_toString (n : Z) : string :=
  NilZero.string_of_int (Z.to_int n).

Definition newSeed (r : unit_double) : Script unit :=
  updateStatusMessage "" "";;
  modify (on_seed (set_value (Number_toString (trunc_scaled r)))).

(** *** [generate] *)

(** White space and line terminators, among the code units below 256:
    TAB, LF, VT, FF, CR, SPACE and NBSP. *)
Definition is_js_whitespace (c : ascii) : bool :=
  let n := Atob.code c in
  ((9 <=? n) && (n <=? 13)) || (n =? 32) || (n =? 160).

Fixpoint trim_start (s : list ascii) : list ascii :=
  match s with
  | c :: s' => if is_js_whitespace c then trim_start s' else s
  | [] => []
  end.

(** [String.prototype.trim]. *)
Definition trim (s : string) : string :=
  string_of_list_ascii
    (rev (trim_start (rev (trim_start (list_ascii_of_string s))))).

Definition is_digit (c : ascii) : bool :=
  let n := Atob.code c in (48 <=? n) && (n <=? 57).

(** [new RegExp("^[0-9]+$").test(s)]: without the multiline flag the
    anchors are the two ends of [s], so [s] is one or more digits. *)
Definition integerRegex_test (s : string) : bool :=
  match list_ascii_of_string s with
  | [] => false
  | c :: cs => is_digit c && forallb is_digit cs
  end.

Definition generate : Script unit :=
  (* Verify that the stored ROM and provided seed are OK *)
  updateStatusMessage "" "";;
  romBase64 ← storageWrapper_getItem "rom_base64";
  match romBase64 with
  | None => updateStatusMessage "No ROM selected" "danger"
  | Some romBase64 =>
      romBytes ← base64ToBytes_script romBase64;
      if negb (isValidROM romBytes) then
        updateStatusMessage "Invalid ROM selected" "danger"
      else
        p ← get_page;
        let seed := trim (value (el_seed p)) in
        if negb (integerRegex_test seed) then
          updateStatusMessage "Seed must be a number" "danger"
        else
          (* Enter "Generating..." mode *)
          modify (on_generate (set_disabled true));;
          modify (on_generateSpinner (classList_remove ["d-none"]));;
          modify (on_generateText (set_innerText "Generating..."));;
          updateStatusMessage
            "Generation in progress, this may take some time..." "";;
          (* Send a message to the web worker to run the randomizer *)
          p ← get_page;
          modify (postMessage
                    (RandomizerArgs romBytes seed
                       (checked (el_itemDuplication p))
                       (checked (el_spoilerLog p))))
  end.

(** *** Pages to run the scripts on *)

Definition blank : element := Element ∅ "" false "" false.

Definition page_with (store : gmap string string) (seed_text : string)
    (files : list (list Z)) : page :=
  Page store blank blank blank blank blank blank
       (set_value seed_text blank) blank blank files [].

(** *** What the page shows *)

(** The three states of the file button and the submit control. *)
Inductive ui_state : Type := NoImage | InvalidImage | ReadyImage.

Definition button_class (u : ui_state) : string :=
  match u with
  | NoImage => "btn-warning"
  | InvalidImage => "btn-danger"
  | ReadyImage => "btn-success"
  end.

Definition button_text (u : ui_state) : string :=
  match u with
  | NoImage => "No ROM selected"
  | InvalidImage => "Invalid ROM selected"
  | ReadyImage => "Valid ROM selected"
  end.

Definition submission_disabled (u : ui_state) : bool :=
  match u with
  | ReadyImage => false
  | _ => true
  end.

(** The page shows state [u]: the text of the file button, which of the
    three state classes it carries, and whether submission is disabled. *)
Definition shows_ui (u : ui_state) (p : page) : Prop :=
  innerText (el_fileButton p) = button_text u /\
  (forall u' : ui_state,
      button_class u' ∈ classList (el_fileButton p) <-> u' = u) /\
  disabled (el_generate p) = submission_disabled u.

(** The state the store calls for: [None] when the record is not Base64
    text, in which case [atob] throws. *)
Definition stored_image (store : gmap string string) : option (option (list Z)) :=
  match store !! prefixed "rom_base64" with
  | None => Some None
  | Some text => (fun bytes => Some bytes) <$> base64ToBytes text
  end.

Definition ui_of_image (image : option (list Z)) : ui_state :=
  match image with
  | None => NoImage
  | Some bytes => if isValidROM bytes then ReadyImage else InvalidImage
  end.

(** The status line shows [message] as an error. *)
Definition shows_danger (message : string) (p : page) : Prop :=
  innerText (el_statusMessage p) = message /\
  innerText (el_statusIcon p) = CROSS_MARK /\
  ("text-danger" ∈ classList (el_statusIcon p)) /\
  ("text-success" ∉ classList (el_statusIcon p)) /\
  ("d-none" ∉ classList (el_statusIcon p)).

(** Nothing but the status line differs between [p] and [p']. *)
Definition same_but_status (p p' : page) : Prop :=
  localStorage p' = localStorage p /\
  el_fileButton p' = el_fileButton p /\
  el_generate p' = el_generate p /\
  el_generateSpinner p' = el_generateSpinner p /\
  el_generateText p' = el_generateText p /\
  el_seed p' = el_seed p /\
  el_itemDuplication p' = el_itemDuplication p /\
  el_spoilerLog p' = el_spoilerLog p /\
  fileName_files p' = fileName_files p /\
  worker_posted p' = worker_posted p.

(** Nothing but the file button and the submit control differs. *)
Definition same_but_controls (p p' : page) : Prop :=
  localStorage p' = localStorage p /\
  el_statusIcon p' = el_statusIcon p /\
  el_statusMessage p' = el_statusMessage p /\
  el_generateSpinner p' = el_generateSpinner p /\
  el_generateText p' = el_generateText p /\
  el_seed p' = el_seed p /\
  el_itemDuplication p' = el_itemDuplication p /\
  el_spoilerLog p' = el_spoilerLog p /\
  fileName_files p' = fileName_files p /\
  worker_posted p' = worker_posted p.

(** [generate] rejected the submission with [message]: it returned, the
    status line shows the message, and nothing else changed. *)
Definition rejected_with (message : string) (p : page) (o : outcome unit) : Prop :=
  exists p', o = Returns tt p' /\ shows_danger message p' /\ same_but_status p p'.

(** The submission checks of the specification: a record is stored, its
    decoded bytes pass the validator, the trimmed seed is all digits. *)
Definition submission_accepted (p : page) (bytes : list Z) (seed : string) : Prop :=
  (exists text, localStorage p !! prefixed "rom_base64" = Some text /\
                base64ToBytes text = Some bytes) /\
  isValidROM bytes = true /\
  seed = trim (value (el_seed p)) /\
  integerRegex_test seed = true.

(** What a user sees of the file button and the submit control. *)
Definition visible (p : page) : string * list bool * bool :=
  (innerText (el_fileButton p),
   map (fun c => bool_decide (c ∈ classList (el_fileButton p)))
       ["btn-success"; "btn-danger"; "btn-warning"],
   disabled (el_generate p)).

Definition visible_after (o : outcome unit) : option (string * list bool * bool) :=
  match o with
  | Returns _ p => Some (visible p)
  | Throws _ _ => None
  end.

(** ** The worker: [runRandomizer] *)

Definition romFileName : string := "shadowrun.sfc".

(** [mockArgv], push by push. *)
Definition mockArgv (args : randomizerArgs) : list string :=
  let mockArgv := ["shadowrun_randomizer.py"] in
  let mockArgv := mockArgv ++ ["--dry-run"] in
  let mockArgv :=
    if negb (bool_decide (seedString args = ""))      (* if (seedString) *)
    then (mockArgv ++ ["--seed"]) ++ [seedString args]
    else mockArgv in
  let mockArgv :=
    if itemDuplication args
    then mockArgv ++ ["--allow-item-duplication"]
    else mockArgv in
  let mockArgv :=
    if spoilerLog args then mockArgv ++ ["--spoiler-log"] else mockArgv in
  let mockArgv := mockArgv ++ ["--"] in
  mockArgv ++ [romFileName].

(** What the randomizer script leaves behind when its module has been
    executed: three module attributes and the text it printed. *)
Record script_run : Type := ScriptRun {
  outFileName : string;
  module_romBytes : list Z;
  module_attemptNumber : Z;
  capturedOutput : string
}.

(** [s.rpartition(".")] without the separator: the parts before and after
    the last dot, or [None] when [s] has no dot. *)
Fixpoint split_last_dot (s : list ascii) : option (list ascii * list ascii) :=
  match s with
  | [] => None
  | c :: s' =>
      match split_last_dot s' with
      | Some (before, after) => Some (c :: before, after)
      | None => if Ascii.eqb c "." then Some ([], s') else None
      end
  end.

(** Python's [str.rpartition(".")]: [("", "", s)] when there is no dot. *)
Definition rpartition_dot (s : string) : string * string * string :=
  match split_last_dot (list_ascii_of_string s) with
  | Some (before, after) =>
      (string_of_list_ascii before, ".", string_of_list_ascii after)
  | None => ("", "", s)
  end.

(** Truth value of a Python string. *)
Definition truthy (s : string) : bool := negb (bool_decide (s = "")).

Definition newBasename (outFileName : string) : string :=
  let '(basename, dot, extension) := rpartition_dot outFileName in
  if truthy basename && truthy extension then basename else outFileName.

(** What is written into an archive member. *)
Inductive member_data : Type :=
| Bytes (b : list Z)
| Text (s : string).

(** A [zipfile.ZipFile] opened for writing: its members in the order they
    were written, each under the name its [ZipInfo] holds. *)
Definition ZipFile : Type := list (string * member_data).

(** The Python exceptions the packaging raises.  [pyodide.runPython] throws
    them on, so [runRandomizer] ends there and posts nothing. *)
Inductive py_exception : Type :=
| IndexError
| struct_error.

Definition NUL : ascii := "000"%char.

(** [ZipInfo.__init__] (CPython 3.11, which Pyodide 0.24.1 runs) keeps of a
    member's name what comes before its first NUL:
    [null_byte = filename.find(chr(0))], [filename = filename[0:null_byte]].
    The next step, replacing [os.sep] by a slash, does nothing where
    [os.sep] is the slash, as it is under Pyodide. *)
Fixpoint until_NUL (filename : string) : string :=
  match filename with
  | EmptyString => EmptyString
  | String c rest =>
      if Ascii.eqb c NUL then EmptyString else String c (until_NUL rest)
  end.

(** [len(filename.encode("utf-8"))] for a string of code points below 256:
    one byte below 128 (where the encoding is the ASCII one that
    [_encodeFilenameFlags] tries first), two bytes from 128 on. *)
Fixpoint utf8_length (s : string) : Z :=
  match s with
  | EmptyString => 0
  | String c rest =>
      (if Z.of_N (N_of_ascii c) <? 128 then 1 else 2) + utf8_length rest
  end.

(** [ZipFile.writestr(zinfo_or_arcname, data)] with a name for first
    argument.  The member's [ZipInfo] is made from the name; the test
    [zinfo.filename[-1] == '/'] that follows raises [IndexError] on an
    empty name (its two branches only set the member's attributes); the
    local file header packs the length of the encoded name as an unsigned
    16-bit field, and [struct.error] is raised when it does not fit.  A
    name already in the archive is written again (with a warning).  The
    clock that stamps the member is taken to be in the range of years a
    zip header holds. *)
Definition writestr (zinfo_or_arcname : string) (data : member_data)
    (zf : ZipFile) : py_exception + ZipFile :=
  let filename := until_NUL zinfo_or_arcname in
  if bool_decide (filename = "") then inl IndexError
  else if 65535 <? utf8_length filename then inl struct_error
  else inr (zf ++ [(filename, data)]).

(** The message the worker posts back. *)
Record generatedSeed : Type := GeneratedSeed {
  zipBytes : ZipFile;
  zipFileName : string;
  attemptNumber : Z
}.

(** The Python fragment after the module has run.  An exception raised in
    the [with] block leaves it: the statements after the block are not
    run. *)
Definition package (run : script_run) : py_exception + generatedSeed :=
  let newBasename := newBasename (outFileName run) in
  (* Create an in-memory zip file containing the randomizer output. *)
  let zf : ZipFile := [] in
  match writestr (newBasename +:+ ".sfc") (Bytes (module_romBytes run)) zf with
  | inl e => inl e
  | inr zf =>
      match writestr (newBasename +:+ ".txt") (Text (capturedOutput run)) zf with
      | inl e => inl e
      | inr zf =>
          inr (GeneratedSeed zf (newBasename +:+ ".zip")
                 (module_attemptNumber run))
      end
  end.

(** [runRandomizer]: the script is the external randomizer, a parameter;
    it is run on the argument vector with the image written under
    [romFileName].  The message is posted when the Python fragment has
    completed ([inr]); when it raises ([inl]) nothing is posted. *)
Definition runRandomizer
    (script : list string -> list (string * list Z) -> script_run)
    (args : randomizerArgs) : py_exception + generatedSeed :=
  let fs := [(romFileName, romBytes args)] in
  package (script (mockArgv args) fs).

(** The vector as the specification lists it: the dry-run flag, the
    optional flags, the image's path. *)
Definition listed_argv (args : randomizerArgs) : list string :=
  ["--dry-run"]
  ++ (if bool_decide (seedString args = "") then [] else ["--seed"; seedString args])
  ++ (if itemDuplication args then ["--allow-item-duplication"] else [])
  ++ (if spoilerLog args then ["--spoiler-log"] else [])
  ++ [romFileName].

(** [name] split around its final dot: [ext] is what follows the last dot
    of [name], [stem] what precedes it. *)
Definition no_dot (s : string) : Prop :=
  ~ In "."%char (list_ascii_of_string s).

Definition split_at_final_dot (name stem ext : string) : Prop :=
  name = stem +:+ "." +:+ ext /\ no_dot ext.

(** A name without the NUL character. *)
Definition no_NUL (s : string) : Prop :=
  ~ In NUL (list_ascii_of_string s).

(** An output name with a NUL character in its stem: [a], NUL, [b.sfc]. *)
Definition NUL_name : string := String "a" (String NUL "b.sfc").

(** ** Auxiliary definitions of the proofs *)

(** Checking a boolean property on every integer below a bound. *)
Fixpoint all_below (n : nat) (P : Z -> bool) : bool :=
  match n with
  | O => true
  | S k => P (Z.of_nat k) && all_below k P
  end.

(** A character the encoder emits for a 6-bit index: the decoder maps it
    back to the index, and it is neither padding nor whitespace. *)
Definition sextet_char (v : Z) (c : ascii) : Prop :=
  Atob.value c = Some v /\ Atob.is_pad c = false /\
  Atob.is_ascii_whitespace c = false.

(** The cells of group [i] once the pass is over. *)
Definition group_cells (bytes : list Z) (i : nat) : list (option ascii) :=
  let '(c0, c1, c2, c3) := group_indices bytes i in
  [JS.charAt alphabet c0; JS.charAt alphabet c1;
   JS.charAt alphabet c2; JS.charAt alphabet c3].

(** A character the decoder accepts in the body of the text. *)
Definition body_char (c : ascii) : Prop :=
  is_Some (Atob.value c) /\ Atob.is_pad c = false /\
  Atob.is_ascii_whitespace c = false.

(** The characters of groups [j .. j+m-1]. *)
Definition group_chars (bytes : list Z) (j m : nat) : list ascii :=
  omap id (concat (map (group_cells bytes) (seq j m))).

(** The two ways the status line is set. *)
Definition status_plain (message : string) (p : page) : page :=
  on_statusMessage (set_innerText message)
    (on_statusIcon (set_innerText "")
      (on_statusIcon (classList_add "d-none")
        (on_statusIcon (classList_remove ["text-success"; "text-danger"]) p))).

Definition status_danger (message : string) (p : page) : page :=
  on_statusMessage (set_innerText message)
    (on_statusIcon (classList_remove ["d-none"])
      (on_statusIcon (set_innerText CROSS_MARK)
        (on_statusIcon (classList_add "text-danger")
          (on_statusIcon (classList_remove ["text-success"; "text-danger"]) p)))).

(** The page once [generate] has entered its "Generating..." mode. *)
Definition generating (p : page) : page :=
  status_plain "Generation in progress, this may take some time..."
    (on_generateText (set_innerText "Generating...")
      (on_generateSpinner (classList_remove ["d-none"])
        (on_generate (set_disabled true) (status_plain "" p)))).

(** The page once [updateFileButton] has shown state [u]. *)
Definition button_shown (u : ui_state) (p : page) : page :=
  on_generate (set_disabled (submission_disabled u))
    (on_fileButton (set_innerText (button_text u))
      (on_fileButton (classList_add (button_class u))
        (on_fileButton
           (classList_remove ["btn-success"; "btn-danger"; "btn-warning"]) p))).

(** The page of a user who has stored the valid image. *)
Definition ready_page (seed_text : string) : page :=
  page_with {[ prefixed "rom_base64" := bytesToBase64 goodROM ]} seed_text [].

(** ** The rest of the interface script: [downloadSeed] and [main] *)

(** What the browser is asked to save when the anchor is clicked: the
    [download] attribute, and the type and content of the blob behind the
    [href]. *)
Record download : Type := Download {
  download_name : string;
  blob_type : string;
  blob_content : ZipFile
}.

(** [downloadSeed]: the anchor is created, appended, clicked, removed and
    its URL revoked, which leaves the document as it was and the browser
    with one download; then the page leaves its "Generating..." mode. *)
Definition downloadSeed (event_data : generatedSeed) : Script download :=
  (* Retrieve the generated seed *)
  let zipBytes := zipBytes event_data in
  let zipFileName := zipFileName event_data in
  let attemptNumber := attemptNumber event_data in
  (* Prompt the user to download the generated seed *)
  let saved := Download zipFileName "application/zip" zipBytes in
  (* Exit "Generating..." mode *)
  updateStatusMessage
    ("Generated a winnable seed on attempt #" +:+ Number_toString attemptNumber)
    "success";;
  modify (on_generateText (set_innerText "Generate"));;
  modify (on_generateSpinner (classList_add "d-none"));;
  modify (on_generate (set_disabled false));;
  mret saved.

(** A response to [fetch], with its body already read. *)
Record response (B : Type) : Type := Response {
  ok : bool;
  status : Z;
  body : B
}.
Arguments Response {B} ok status body.
Arguments ok {B} r.
Arguments status {B} r.
Arguments body {B} r.

(** What [await fetch(...)] yields: a response, or the exception of a
    rejected promise. *)
Inductive fetched (B : Type) : Type :=
| Rejected (e : exn)
| Responded (r : response B).
Arguments Rejected {B} e.
Arguments Responded {B} r.

(** [new Error(`Could not fetch '${fileName}'. HTTP response status code:
    ${response.status}`)]. *)
Definition fetch_error (fileName : string) (status : Z) : exn :=
  JSError ("Could not fetch '" +:+ fileName
           +:+ "'. HTTP response status code: " +:+ Number_toString status).

(** *** The version line *)

Definition QUOTE : ascii := ascii_of_nat 34.

(** Line terminators among the code units below 256: LF and CR. *)
Definition is_line_terminator (c : ascii) : bool :=
  (Atob.code c =? 10) || (Atob.code c =? 13).

(** The lines of a text: the stretches between line terminators. *)
Fixpoint split_lines (s : list ascii) : list (list ascii) :=
  match s with
  | [] => [[]]
  | c :: s' =>
      if is_line_terminator c then [] :: split_lines s'
      else match split_lines s' with
           | l :: ls => (c :: l) :: ls
           | [] => [[c]]
           end
  end.

(** [l] stripped of the prefix [pre], if it starts with it. *)
Fixpoint strip_prefix (pre l : list ascii) : option (list ascii) :=
  match pre, l with
  | [], _ => Some l
  | a :: pre', b :: l' => if Ascii.eqb a b then strip_prefix pre' l' else None
  | _ :: _, [] => None
  end.

(** [l] stripped of a final double quote, if it ends with one. *)
Definition strip_final_quote (l : list ascii) : option (list ascii) :=
  match rev l with
  | c :: r => if Ascii.eqb c QUOTE then Some (rev r) else None
  | [] => None
  end.

Definition version_prefix : list ascii :=
  list_ascii_of_string "randomizerVersion = " ++ [QUOTE].

(** One line against the pattern between [^] and [$]: the literal prefix,
    then the captured group, any characters and greedy, then a double
    quote at the end of the line. *)
Definition match_version_line (l : list ascii) : option (list ascii) :=
  rest ← strip_prefix version_prefix l;
  strip_final_quote rest.

(** The capture of the pattern on the first line it matches.  With the
    multiline flag [^] and [$] are the two ends of a line, and [.] does
    not match a line terminator, so a match is a whole line. *)
Fixpoint first_match (ls : list (list ascii)) : option (list ascii) :=
  match ls with
  | [] => None
  | l :: ls' =>
      match match_version_line l with
      | Some v => Some v
      | None => first_match ls'
      end
  end.

Definition versionRegex_exec (fileString : string) : option string :=
  string_of_list_ascii
    <$> first_match (split_lines (list_ascii_of_string fileString)).

(** *** [main] *)

(** The page together with the three elements only [main] touches. *)
Record document : Type := Document {
  doc_page : page;
  el_version : element;
  el_loading : element;
  el_application : element
}.

Inductive doc_outcome (A : Type) : Type :=
| DocReturns (a : A) (d : document)
| DocThrows (e : exn) (d : document).
Arguments DocReturns {A} a d.
Arguments DocThrows {A} e d.

Definition DocScript (A : Type) : Type := document -> doc_outcome A.

#[local] Instance DocScript_ret : MRet DocScript := fun A a d => DocReturns a d.
#[local] Instance DocScript_bind : MBind DocScript := fun A B f m d =>
  match m d with
  | DocReturns a d' => f a d'
  | DocThrows e d' => DocThrows e d'
  end.

(** A script of the page, run inside the document. *)
Definition on_page {A : Type} (m : Script A) : DocScript A :=
  fun d =>
    match m (doc_page d) with
    | Returns a p =>
        DocReturns a (Document p (el_version d) (el_loading d) (el_application d))
    | Throws e p =>
        DocThrows e (Document p (el_version d) (el_loading d) (el_application d))
    end.

Definition doc_throw {A : Type} (e : exn) : DocScript A := fun d => DocThrows e d.

Definition on_version (f : element -> element) : DocScript unit :=
  fun d => DocReturns tt
    (Document (doc_page d) (f (el_version d)) (el_loading d) (el_application d)).

Definition on_loading (f : element -> element) : DocScript unit :=
  fun d => DocReturns tt
    (Document (doc_page d) (el_version d) (f (el_loading d)) (el_application d)).

Definition on_application (f : element -> element) : DocScript unit :=
  fun d => DocReturns tt
    (Document (doc_page d) (el_version d) (el_loading d) (f (el_application d))).

Definition final_document {A : Type} (o : doc_outcome A) : document :=
  match o with
  | DocReturns _ d => d
  | DocThrows _ d => d
  end.

(** [main]: [response] is what fetching the randomizer script yields and
    [r] the value [Math.random()] returns when the "new seed" button is
    clicked.  Creating the worker and registering [downloadSeed] for its
    messages leave the document as it is. *)
Definition main (response : fetched string) (r : unit_double) : DocScript unit :=
  let fileName := "shadowrun_randomizer.py" in
  match response with
  | Rejected e => doc_throw e
  | Responded response =>
      if negb (ok response) then doc_throw (fetch_error fileName (status response))
      else
        let fileString := body response in
        let versionMatch := versionRegex_exec fileString in
        match versionMatch with
        | Some version => on_version (set_innerText version)
        | None => mret tt
        end;;
        on_page updateFileButton;;
        on_page (newSeed r);;
        on_page (updateStatusMessage "" "");;
        on_loading (classList_add "d-none");;
        on_application (classList_remove ["invisible"])
  end.

(** ** The rest of the worker: [loadPyodideAndFiles] *)

(** The private file system of the runtime. *)
Abbreviation FS := (gmap string (list Z)).

Definition fetchFile (fetch : string -> fetched (list Z)) (fileName : string)
    (fs : FS) : exn + FS :=
  match fetch fileName with
  | Rejected e => inl e
  | Responded response =>
      if negb (ok response) then inl (fetch_error fileName (status response))
      else
        let fileBytes := body response in
        inr (<[fileName := fileBytes]> fs)
  end.

(** [loadPyodideAndFiles]: [loaded] is what [await loadPyodide()] yields,
    the file system of a fresh runtime or an exception. *)
Definition loadPyodideAndFiles (loaded : exn + FS)
    (fetch : string -> fetched (list Z)) : exn + FS :=
  match loaded with
  | inl e => inl e
  | inr fs =>
      match fetchFile fetch "shadowrun_randomizer.py" fs with
      | inl e => inl e
      | inr fs => fetchFile fetch "initial_item_state.bin" fs
      end
  end.

(** The files a job has written, on top of the runtime's. *)
Definition written_over (fs : FS) (files : list (string * list Z)) : FS :=
  foldl (fun fs '(name, bytes) => <[name := bytes]> fs) fs files.

(** [runRandomizer] from its first line: [pyodideReadyPromise] is awaited,
    and a rejected promise is thrown again, before anything else ([inl]);
    otherwise the job is run, and ends as [runRandomizer] does. *)
Definition runRandomizer_awaiting (pyodideReady : exn + FS)
    (script : list string -> FS -> script_run)
    (args : randomizerArgs) : exn + (py_exception + generatedSeed) :=
  match pyodideReady with
  | inl e => inl e
  | inr fs =>
      inr (runRandomizer (fun argv files => script argv (written_over fs files))
             args)
  end.

(** *** More of what the page shows *)

(** The status line is empty and its icon hidden. *)
Definition status_cleared (p : page) : Prop :=
  innerText (el_statusMessage p) = ""%string /\
  innerText (el_statusIcon p) = ""%string /\
  "d-none" ∈ classList (el_statusIcon p).

(** The status line shows [message] as a success. *)
Definition shows_success (message : string) (p : page) : Prop :=
  innerText (el_statusMessage p) = message /\
  innerText (el_statusIcon p) = CHECK_MARK /\
  ("text-success" ∈ classList (el_statusIcon p)) /\
  ("text-danger" ∉ classList (el_statusIcon p)) /\
  ("d-none" ∉ classList (el_statusIcon p)).

(** The submit control in its "Generating..." mode, and out of it. *)
Definition in_flight (p : page) : Prop :=
  disabled (el_generate p) = true /\
  ("d-none" ∉ classList (el_generateSpinner p)) /\
  innerText (el_generateText p) = "Generating..."%string.

Definition idle (p : page) : Prop :=
  disabled (el_generate p) = false /\
  ("d-none" ∈ classList (el_generateSpinner p)) /\
  innerText (el_generateText p) = "Generate"%string.

(** The file button carries none of the three state classes. *)
Definition no_state_class (p : page) : Prop :=
  forall u : ui_state, button_class u ∉ classList (el_fileButton p).

(** The page once the status line has been set to a success. *)
Definition status_success (message : string) (p : page) : page :=
  on_statusMessage (set_innerText message)
    (on_statusIcon (classList_remove ["d-none"])
      (on_statusIcon (set_innerText CHECK_MARK)
        (on_statusIcon (classList_add "text-success")
          (on_statusIcon (classList_remove ["text-success"; "text-danger"]) p)))).

(** The page once [downloadSeed] has left the "Generating..." mode. *)
Definition generated (message : string) (p : page) : page :=
  on_generate (set_disabled false)
    (on_generateSpinner (classList_add "d-none")
      (on_generateText (set_innerText "Generate")
        (status_success message p))).

(** The page of a user who has stored the valid image, as the markup
    presents the submit control: enabled, spinner hidden. *)
Definition ready_page_idle (seed_text : string) : page :=
  on_generateSpinner (classList_add "d-none")
    (on_generateText (set_innerText "Generate") (ready_page seed_text)).

(** The text of the status line after a successful generation. *)
Definition success_message (attempt : Z) : string :=
  "Generated a winnable seed on attempt #" +:+ Number_toString attempt.

(** *** The version line, as a text *)

(** The line [randomizerVersion = "<version>"]. *)
Definition version_line (version : string) : string :=
  "randomizerVersion = " +:+ String QUOTE (version +:+ String QUOTE "").

Definition no_line_terminator (s : string) : Prop :=
  Forall (fun c => is_line_terminator c = false) (list_ascii_of_string s).

(** [s] is empty or ends with a line terminator: a line can start after
    it.  [s] is empty or starts with a line terminator: a line can end
    before it. *)
Definition ends_line (s : string) : Prop :=
  s = ""%string \/
  exists s0 t, s = s0 +:+ String t "" /\ is_line_terminator t = true.

Definition starts_line (s : string) : Prop :=
  s = ""%string \/
  exists t s0, s = String t s0 /\ is_line_terminator t = true.
Example bytesToBase64_Man : bytesToBase64 [77; 97; 110] = "TWFu"%string.
Proof. reflexivity. Qed.

Example bytesToBase64_Ma : bytesToBase64 [77; 97] = "TWE="%string.
Proof. reflexivity. Qed.

Example bytesToBase64_M : bytesToBase64 [77] = "TQ=="%string.
Proof. reflexivity. Qed.

Example base64ToBytes_TQ : base64ToBytes "TQ==" = Some [77].
Proof. reflexivity. Qed.

Example base64ToBytes_bad : base64ToBytes "T" = None.
Proof. reflexivity. Qed.


Example isValidROM_goodROM : isValidROM goodROM = true.
Proof. vm_compute. reflexivity. Qed.

Example isValidROM_checked_goodROM : isValidROM_checked goodROM = Some true.
Proof. vm_compute. reflexivity. Qed.

Example isValidROM_empty : isValidROM [] = false.
Proof. reflexivity. Qed.

Example isValidROM_checked_short : isValidROM_checked [1; 2; 3] = Some false.
Proof. reflexivity. Qed.

Example newBasename_foo_sfc : newBasename "foo.sfc" = "foo"%string.
Proof. reflexivity. Qed.

Example newBasename_a_b_c : newBasename "a.b.c" = "a.b"%string.
Proof. reflexivity. Qed.

Example trim_spaces : trim "  42 " = "42"%string.
Proof. reflexivity. Qed.

Example Number_toString_0 : Number_toString 0 = "0"%string.
Proof. reflexivity. Qed.

Example Number_toString_max : Number_toString 4294967295 = "4294967295"%string.
Proof. reflexivity. Qed.

Example mockArgv_42 :
  mockArgv (RandomizerArgs [] "42" false true)
  = ["shadowrun_randomizer.py"; "--dry-run"; "--seed"; "42"; "--spoiler-log";
     "--"; "shadowrun.sfc"]%string.
Proof. reflexivity. Qed.

Example until_NUL_cuts : until_NUL NUL_name = "a"%string.
Proof. reflexivity. Qed.

Example until_NUL_keeps : until_NUL "foo.sfc" = "foo.sfc"%string.
Proof. reflexivity. Qed.
(** ** Round trip of the codec *)

Lemma all_below_spec (n : nat) (P : Z -> bool) :
  all_below n P = true -> forall z, 0 <= z < Z.of_nat n -> P z = true.
Proof.
  induction n as [|k IH]; simpl; intros H z Hz; [lia|].
  apply andb_prop in H as [H1 H2].
  destruct (Z.eq_dec z (Z.of_nat k)) as [->|Hne]; [exact H1|].
  apply IH; [exact H2 | lia].
Qed.

(** The six mask-and-shift expressions of the encoder on a byte. *)
Lemma byte_fields (b : Z) :
  0 <= b < 256 ->
  (b .& 0xFC) .>> 2 = b / 4 /\
  (b .& 0x03) .<< 4 = 16 * (b mod 4) /\
  (b .& 0xF0) .>> 4 = b / 16 /\
  (b .& 0x0F) .<< 2 = 4 * (b mod 16) /\
  (b .& 0xC0) .>> 6 = b / 64 /\
  b .& 0x3F = b mod 64.
Proof.
  intros Hb.
  pose (P := fun b =>
    (((b .& 0xFC) .>> 2) =? b / 4) && (((b .& 0x03) .<< 4) =? 16 * (b mod 4))
    && (((b .& 0xF0) .>> 4) =? b / 16) && (((b .& 0x0F) .<< 2) =? 4 * (b mod 16))
    && (((b .& 0xC0) .>> 6) =? b / 64) && ((b .& 0x3F) =? b mod 64)).
  assert (HP : P b = true).
  { apply (all_below_spec 256); [vm_compute; reflexivity | exact Hb]. }
  unfold P in HP.
  repeat (apply andb_prop in HP as [HP ?]).
  repeat split; apply Z.eqb_eq; assumption.
Qed.

(** [|] glues two disjoint bit fields. *)
Lemma bor_fields_4 (x y : Z) :
  0 <= x < 4 -> 0 <= y < 16 -> (16 * x) .| y = 16 * x + y.
Proof.
  intros Hx Hy.
  pose (P := fun x => all_below 16 (fun y => ((16 * x) .| y) =? 16 * x + y)).
  assert (HP : P x = true).
  { apply (all_below_spec 4); [vm_compute; reflexivity | exact Hx]. }
  apply Z.eqb_eq.
  exact (all_below_spec 16 _ HP y Hy).
Qed.

Lemma bor_fields_2 (x y : Z) :
  0 <= x < 16 -> 0 <= y < 4 -> (4 * x) .| y = 4 * x + y.
Proof.
  intros Hx Hy.
  pose (P := fun x => all_below 4 (fun y => ((4 * x) .| y) =? 4 * x + y)).
  assert (HP : P x = true).
  { apply (all_below_spec 16); [vm_compute; reflexivity | exact Hx]. }
  apply Z.eqb_eq.
  exact (all_below_spec 4 _ HP y Hy).
Qed.

Lemma alphabet_sextet (v : Z) :
  0 <= v < 64 -> exists c, JS.charAt alphabet v = Some c /\ sextet_char v c.
Proof.
  intros Hv.
  pose (P := fun v =>
    match JS.charAt alphabet v with
    | Some c =>
        match Atob.value c with Some w => w =? v | None => false end
        && negb (Atob.is_pad c) && negb (Atob.is_ascii_whitespace c)
    | None => false
    end).
  assert (HP : P v = true).
  { apply (all_below_spec 64); [vm_compute; reflexivity | exact Hv]. }
  unfold P in HP.
  destruct (JS.charAt alphabet v) as [c|]; [|discriminate].
  exists c. split; [reflexivity|].
  apply andb_prop in HP as [HP H3]. apply andb_prop in HP as [H1 H2].
  unfold sextet_char.
  destruct (Atob.value c) as [w|]; [|discriminate].
  apply Z.eqb_eq in H1. subst w.
  repeat split; [now apply negb_true_iff in H2 | now apply negb_true_iff in H3].
Qed.

Lemma alphabet_padding :
  exists c, JS.charAt alphabet PADDING_INDEX = Some c /\
            Atob.is_pad c = true /\ Atob.is_ascii_whitespace c = false.
Proof. eexists. repeat split. Qed.

Lemma encode_pass_cells (bytes : list Z) (i m : nat) (pre : list (option ascii)) :
  length pre = (4 * i)%nat ->
  encode_pass bytes i (pre ++ replicate (4 * S m) None)
  = pre ++ group_cells bytes i ++ replicate (4 * m) None.
Proof.
  intros Hlen. unfold encode_pass, group_cells.
  destruct (group_indices bytes i) as [[[c0 c1] c2] c3].
  replace (4 * S m)%nat with (S (S (S (S (4 * m))))) by lia.
  rewrite !insert_app_r_alt by (rewrite ?length_app, ?length_insert; lia).
  rewrite Hlen.
  replace (4 * i + 0 - 4 * i)%nat with 0%nat by lia.
  replace (4 * i + 1 - 4 * i)%nat with 1%nat by lia.
  replace (4 * i + 2 - 4 * i)%nat with 2%nat by lia.
  replace (4 * i + 3 - 4 * i)%nat with 3%nat by lia.
  reflexivity.
Qed.

Lemma ceil_div3_lt (n i : nat) : (3 * i < n <-> i < ceil_div3 n)%nat.
Proof.
  unfold ceil_div3.
  pose proof (Nat.div_mod_eq (n + 2) 3) as E.
  pose proof (Nat.mod_upper_bound (n + 2) 3 ltac:(lia)) as B.
  lia.
Qed.

Lemma encode_loop_S (fuel : nat) (bytes : list Z) (i : nat)
    (base64 : list (option ascii)) :
  encode_loop (S fuel) bytes i base64
  = if (3 * i <? length bytes)%nat
    then encode_loop fuel bytes (S i) (encode_pass bytes i base64)
    else base64.
Proof. reflexivity. Qed.

(** The loop fills the array group by group. *)
Lemma encode_loop_cells (bytes : list Z) :
  forall (fuel i m : nat) (pre : list (option ascii)),
    length pre = (4 * i)%nat ->
    (i + m)%nat = ceil_div3 (length bytes) ->
    (m <= fuel)%nat ->
    encode_loop fuel bytes i (pre ++ replicate (4 * m) None)
    = pre ++ concat (map (group_cells bytes) (seq i m)).
Proof.
  induction fuel as [|fuel IH]; intros i m pre Hlen Hk Hfuel.
  - assert (m = 0%nat) as -> by lia. reflexivity.
  - rewrite encode_loop_S. destruct m as [|m].
    + assert (Hi : ~ (3 * i < length bytes)%nat)
        by (rewrite ceil_div3_lt; lia).
      apply Nat.ltb_nlt in Hi. rewrite Hi. reflexivity.
    + assert (Hi : (3 * i < length bytes)%nat)
        by (rewrite ceil_div3_lt; lia).
      apply Nat.ltb_lt in Hi. rewrite Hi.
      rewrite encode_pass_cells by exact Hlen.
      assert (Hg : length (group_cells bytes i) = 4%nat).
      { unfold group_cells.
        destruct (group_indices bytes i) as [[[? ?] ?] ?]. reflexivity. }
      rewrite app_assoc.
      rewrite IH; [| rewrite length_app; lia | lia | lia].
      rewrite <- app_assoc. reflexivity.
Qed.

Lemma bytesToBase64_cells (bytes : list Z) :
  bytesToBase64 bytes
  = JS.join (concat (map (group_cells bytes)
                         (seq 0 (ceil_div3 (length bytes))))).
Proof.
  unfold bytesToBase64. f_equal.
  apply (encode_loop_cells bytes (length bytes) 0
           (ceil_div3 (length bytes)) []); try reflexivity.
  unfold ceil_div3.
  pose proof (Nat.div_mod_eq (length bytes + 2) 3).
  pose proof (Nat.mod_upper_bound (length bytes + 2) 3 ltac:(lia)).
  lia.
Qed.

(** The characters of the joined cells. *)
Lemma join_chars (cells : list (option ascii)) :
  list_ascii_of_string (JS.join cells) = omap id cells.
Proof.
  induction cells as [|[c|] cells IH]; simpl; [reflexivity| |exact IH].
  now rewrite IH.
Qed.

(** *** The indices of a group, by the number of bytes it covers *)

Lemma drop_lookup (l : list Z) (k j : nat) (x : Z) :
  drop k l !! j = Some x ->
  l !! (k + j)%nat = Some x /\ (k + j < length l)%nat.
Proof.
  rewrite lookup_drop. intros H. split; [exact H|].
  exact (lookup_lt_Some _ _ _ H).
Qed.

Lemma group_indices_full (bytes : list Z) (i : nat) (b0 b1 b2 : Z) (tl : list Z) :
  drop (3 * i) bytes = b0 :: b1 :: b2 :: tl ->
  0 <= b0 < 256 -> 0 <= b1 < 256 -> 0 <= b2 < 256 ->
  group_indices bytes i
  = (b0 / 4, 16 * (b0 mod 4) + b1 / 16, 4 * (b1 mod 16) + b2 / 64, b2 mod 64).
Proof.
  intros Hd H0 H1 H2.
  destruct (drop_lookup bytes (3 * i) 0 b0) as [L0 _]; [now rewrite Hd|].
  destruct (drop_lookup bytes (3 * i) 1 b1) as [L1 N1]; [now rewrite Hd|].
  destruct (drop_lookup bytes (3 * i) 2 b2) as [L2 N2]; [now rewrite Hd|].
  unfold group_indices.
  apply Nat.ltb_lt in N1, N2. rewrite N1, N2, L0, L1, L2.
  cbv [JS.int32_of default from_option id].
  destruct (byte_fields b0 H0) as (-> & -> & _).
  destruct (byte_fields b1 H1) as (_ & _ & -> & -> & _).
  destruct (byte_fields b2 H2) as (_ & _ & _ & _ & -> & ->).
  rewrite bor_fields_4, bor_fields_2; try reflexivity;
    try (apply Z.mod_pos_bound; lia);
    (split; [apply Z.div_pos; lia | apply Z.div_lt_upper_bound; lia]).
Qed.

Lemma group_indices_two (bytes : list Z) (i : nat) (b0 b1 : Z) :
  drop (3 * i) bytes = [b0; b1] ->
  0 <= b0 < 256 -> 0 <= b1 < 256 ->
  group_indices bytes i
  = (b0 / 4, 16 * (b0 mod 4) + b1 / 16, 4 * (b1 mod 16), PADDING_INDEX).
Proof.
  intros Hd H0 H1.
  destruct (drop_lookup bytes (3 * i) 0 b0) as [L0 _]; [now rewrite Hd|].
  destruct (drop_lookup bytes (3 * i) 1 b1) as [L1 N1]; [now rewrite Hd|].
  assert (N2 : ~ (3 * i + 2 < length bytes)%nat).
  { apply (f_equal length) in Hd. rewrite length_drop in Hd. simpl in Hd. lia. }
  unfold group_indices.
  apply Nat.ltb_lt in N1. apply Nat.ltb_nlt in N2. rewrite N1, N2, L0, L1.
  cbv [JS.int32_of default from_option id].
  destruct (byte_fields b0 H0) as (-> & -> & _).
  destruct (byte_fields b1 H1) as (_ & _ & -> & -> & _).
  rewrite bor_fields_4; try reflexivity;
    try (apply Z.mod_pos_bound; lia);
    (split; [apply Z.div_pos; lia | apply Z.div_lt_upper_bound; lia]).
Qed.

Lemma group_indices_one (bytes : list Z) (i : nat) (b0 : Z) :
  drop (3 * i) bytes = [b0] ->
  0 <= b0 < 256 ->
  group_indices bytes i
  = (b0 / 4, 16 * (b0 mod 4), PADDING_INDEX, PADDING_INDEX).
Proof.
  intros Hd H0.
  destruct (drop_lookup bytes (3 * i) 0 b0) as [L0 _]; [now rewrite Hd|].
  assert (N1 : ~ (3 * i + 1 < length bytes)%nat).
  { apply (f_equal length) in Hd. rewrite length_drop in Hd. simpl in Hd. lia. }
  assert (N2 : ~ (3 * i + 2 < length bytes)%nat) by lia.
  unfold group_indices.
  apply Nat.ltb_nlt in N1, N2. rewrite N1, N2, L0.
  cbv [JS.int32_of default from_option id].
  destruct (byte_fields b0 H0) as (-> & -> & _).
  reflexivity.
Qed.

(** *** What the decoder does with the characters of one group *)

Lemma regroup_three (b0 b1 b2 : Z) :
  0 <= b0 < 256 -> 0 <= b1 < 256 -> 0 <= b2 < 256 ->
  let buffer :=
    64 * (64 * (64 * (64 * 0 + b0 / 4) + (16 * (b0 mod 4) + b1 / 16))
          + (4 * (b1 mod 16) + b2 / 64)) + b2 mod 64 in
  buffer / 65536 = b0 /\ buffer / 256 mod 256 = b1 /\ buffer mod 256 = b2.
Proof.
  intros H0 H1 H2 buffer.
  assert (E : buffer = 65536 * b0 + 256 * b1 + b2)
    by (unfold buffer; Z.div_mod_to_equations; lia).
  rewrite E. clear E buffer.
  repeat split; Z.div_mod_to_equations; lia.
Qed.

Lemma regroup_two (b0 b1 : Z) :
  0 <= b0 < 256 -> 0 <= b1 < 256 ->
  let buffer :=
    64 * (64 * (64 * 0 + b0 / 4) + (16 * (b0 mod 4) + b1 / 16))
    + 4 * (b1 mod 16) in
  buffer / 4 / 256 = b0 /\ buffer / 4 mod 256 = b1.
Proof.
  intros H0 H1 buffer.
  assert (E : buffer = 4 * (256 * b0 + b1))
    by (unfold buffer; Z.div_mod_to_equations; lia).
  rewrite E. clear E buffer.
  rewrite Z.mul_comm, Z.div_mul by lia.
  split; Z.div_mod_to_equations; lia.
Qed.

Lemma regroup_one (b0 : Z) :
  0 <= b0 < 256 ->
  (64 * (64 * 0 + b0 / 4) + 16 * (b0 mod 4)) / 16 = b0.
Proof. intros H0. Z.div_mod_to_equations. lia. Qed.

Lemma sextet_body (v : Z) (c : ascii) : sextet_char v c -> body_char c.
Proof. intros (Hv & Hp & Hw). repeat split; [rewrite Hv; eauto|..]; assumption. Qed.

Ltac sextet_bound :=
  repeat match goal with
  | |- context [?b mod ?k] =>
      lazymatch goal with
      | _ : 0 <= b mod k < k |- _ => fail
      | _ => pose proof (Z.mod_pos_bound b k ltac:(lia))
      end
  end;
  Z.div_mod_to_equations; lia.

Lemma decode_group_full (bytes : list Z) (i : nat) (b0 b1 b2 : Z) (tl : list Z) :
  drop (3 * i) bytes = b0 :: b1 :: b2 :: tl ->
  0 <= b0 < 256 -> 0 <= b1 < 256 -> 0 <= b2 < 256 ->
  exists x0 x1 x2 x3,
    group_cells bytes i = [Some x0; Some x1; Some x2; Some x3] /\
    Forall body_char [x0; x1; x2; x3] /\
    forall rest out,
      Atob.decode_loop (x0 :: x1 :: x2 :: x3 :: rest) 0 0%nat out
      = Atob.decode_loop rest 0 0%nat (out ++ [b0; b1; b2]).
Proof.
  intros Hd H0 H1 H2.
  unfold group_cells. rewrite (group_indices_full _ _ _ _ _ _ Hd H0 H1 H2).
  destruct (alphabet_sextet (b0 / 4)) as (x0 & -> & S0); [sextet_bound|].
  destruct (alphabet_sextet (16 * (b0 mod 4) + b1 / 16)) as (x1 & -> & S1);
    [sextet_bound|].
  destruct (alphabet_sextet (4 * (b1 mod 16) + b2 / 64)) as (x2 & -> & S2);
    [sextet_bound|].
  destruct (alphabet_sextet (b2 mod 64)) as (x3 & -> & S3); [sextet_bound|].
  exists x0, x1, x2, x3. split; [reflexivity|]. split.
  - repeat constructor; eapply sextet_body; eassumption.
  - intros rest out.
    destruct S0 as (V0 & _), S1 as (V1 & _), S2 as (V2 & _), S3 as (V3 & _).
    cbn [Atob.decode_loop]. rewrite V0, V1, V2, V3. cbn [Nat.eqb].
    destruct (regroup_three b0 b1 b2 H0 H1 H2) as (-> & -> & ->).
    reflexivity.
Qed.

Lemma decode_group_two (bytes : list Z) (i : nat) (b0 b1 : Z) :
  drop (3 * i) bytes = [b0; b1] ->
  0 <= b0 < 256 -> 0 <= b1 < 256 ->
  exists x0 x1 x2 p,
    group_cells bytes i = [Some x0; Some x1; Some x2; Some p] /\
    Forall body_char [x0; x1; x2] /\
    Atob.is_pad p = true /\ Atob.is_ascii_whitespace p = false /\
    forall out,
      Atob.decode_loop [x0; x1; x2] 0 0%nat out = Some (out ++ [b0; b1]).
Proof.
  intros Hd H0 H1.
  unfold group_cells. rewrite (group_indices_two _ _ _ _ Hd H0 H1).
  destruct (alphabet_sextet (b0 / 4)) as (x0 & -> & S0); [sextet_bound|].
  destruct (alphabet_sextet (16 * (b0 mod 4) + b1 / 16)) as (x1 & -> & S1);
    [sextet_bound|].
  destruct (alphabet_sextet (4 * (b1 mod 16))) as (x2 & -> & S2);
    [sextet_bound|].
  destruct alphabet_padding as (p & -> & Hp & Hw).
  exists x0, x1, x2, p. split; [reflexivity|]. split; [|split; [|split]]; try assumption.
  - repeat constructor; eapply sextet_body; eassumption.
  - intros out.
    destruct S0 as (V0 & _), S1 as (V1 & _), S2 as (V2 & _).
    cbn [Atob.decode_loop]. rewrite V0, V1, V2. cbn [Nat.eqb].
    destruct (regroup_two b0 b1 H0 H1) as (-> & ->).
    reflexivity.
Qed.

Lemma decode_group_one (bytes : list Z) (i : nat) (b0 : Z) :
  drop (3 * i) bytes = [b0] ->
  0 <= b0 < 256 ->
  exists x0 x1 p,
    group_cells bytes i = [Some x0; Some x1; Some p; Some p] /\
    Forall body_char [x0; x1] /\
    Atob.is_pad p = true /\ Atob.is_ascii_whitespace p = false /\
    forall out, Atob.decode_loop [x0; x1] 0 0%nat out = Some (out ++ [b0]).
Proof.
  intros Hd H0.
  unfold group_cells. rewrite (group_indices_one _ _ _ Hd H0).
  destruct (alphabet_sextet (b0 / 4)) as (x0 & -> & S0); [sextet_bound|].
  destruct (alphabet_sextet (16 * (b0 mod 4))) as (x1 & -> & S1);
    [sextet_bound|].
  destruct alphabet_padding as (p & -> & Hp & Hw).
  exists x0, x1, p. split; [reflexivity|]. split; [|split; [|split]]; try assumption.
  - repeat constructor; eapply sextet_body; eassumption.
  - intros out.
    destruct S0 as (V0 & _), S1 as (V1 & _).
    cbn [Atob.decode_loop]. rewrite V0, V1. cbn [Nat.eqb].
    rewrite (regroup_one b0 H0).
    reflexivity.
Qed.

(** *** The groups that cover three bytes *)

Lemma group_chars_S (bytes : list Z) (j m : nat) :
  group_chars bytes j (S m)
  = omap id (group_cells bytes j) ++ group_chars bytes (S j) m.
Proof. unfold group_chars. simpl. now rewrite omap_app. Qed.

Lemma drop_three (l : list Z) (k : nat) :
  (k + 3 <= length l)%nat ->
  exists b0 b1 b2, drop k l = b0 :: b1 :: b2 :: drop (k + 3) l.
Proof.
  intros Hk.
  rewrite <- (drop_drop l 3 k).
  pose proof (length_drop l k) as HL.
  destruct (drop k l) as [|b0 [|b1 [|b2 tl]]]; simpl in HL; try lia.
  exists b0, b1, b2. reflexivity.
Qed.

Lemma is_bytes_drop (l : list Z) (k : nat) : is_bytes l -> is_bytes (drop k l).
Proof. apply Forall_drop. Qed.

Lemma decode_full_groups (bytes : list Z) :
  is_bytes bytes ->
  forall (m j : nat),
    (3 * (j + m) <= length bytes)%nat ->
    Forall body_char (group_chars bytes j m) /\
    length (group_chars bytes j m) = (4 * m)%nat /\
    forall rest out,
      Atob.decode_loop (group_chars bytes j m ++ rest) 0 0%nat out
      = Atob.decode_loop rest 0 0%nat (out ++ take (3 * m) (drop (3 * j) bytes)).
Proof.
  intros Hb. induction m as [|m IH]; intros j Hj.
  - repeat split; [constructor|]. intros rest out. simpl. now rewrite app_nil_r.
  - destruct (drop_three bytes (3 * j)) as (b0 & b1 & b2 & Hd); [lia|].
    pose proof (is_bytes_drop bytes (3 * j) Hb) as Hr. rewrite Hd in Hr.
    apply Forall_cons in Hr as [H0 Hr]. apply Forall_cons in Hr as [H1 Hr].
    apply Forall_cons in Hr as [H2 _].
    destruct (decode_group_full bytes j b0 b1 b2 _ Hd H0 H1 H2)
      as (x0 & x1 & x2 & x3 & Hc & Hbody & Hdec).
    destruct (IH (S j)) as (IHb & IHl & IHd); [lia|].
    rewrite group_chars_S, Hc. cbn [omap list_omap id].
    repeat split.
    + apply Forall_app. split; assumption.
    + rewrite length_app, IHl. simpl. lia.
    + intros rest out.
      change ([x0; x1; x2; x3] ++ group_chars bytes (S j) m)
        with (x0 :: x1 :: x2 :: x3 :: group_chars bytes (S j) m).
      rewrite <- !app_comm_cons, Hdec, IHd.
      f_equal. rewrite <- app_assoc. f_equal.
      replace (3 * S m)%nat with (S (S (S (3 * m)))) by lia.
      rewrite Hd. cbn [take app].
      replace (3 * S j)%nat with (3 * j + 3)%nat by lia. reflexivity.
Qed.

(** *** Padding and whitespace on the encoder's output *)

Lemma drop_pad_pad (l : list ascii) (p : ascii) :
  Atob.is_pad p = true -> Atob.drop_pad (l ++ [p]) = l.
Proof.
  intros Hp. unfold Atob.drop_pad.
  rewrite rev_unit, Hp. apply rev_involutive.
Qed.

Lemma drop_pad_body (l : list ascii) :
  Forall body_char l -> Atob.drop_pad l = l.
Proof.
  intros Hl. unfold Atob.drop_pad.
  destruct (rev l) as [|c r] eqn:E; [reflexivity|].
  assert (Hin : In c l) by (apply in_rev; rewrite E; now left).
  rewrite Forall_forall in Hl.
  apply list_elem_of_In, Hl in Hin. destruct Hin as (_ & -> & _). reflexivity.
Qed.

Lemma filter_no_whitespace (l : list ascii) :
  Forall (fun c => Atob.is_ascii_whitespace c = false) l ->
  filter (fun c => Atob.is_ascii_whitespace c = false) l = l.
Proof.
  induction 1 as [|c l Hc _ IH]; [reflexivity|].
  rewrite filter_cons_True by exact Hc. now rewrite IH.
Qed.

Lemma body_no_whitespace (l : list ascii) :
  Forall body_char l -> Forall (fun c => Atob.is_ascii_whitespace c = false) l.
Proof.
  intros Hl. eapply Forall_impl; [exact Hl|]. intros c (_ & _ & H). exact H.
Qed.

Lemma body_all_valid (l : list ascii) :
  Forall body_char l ->
  forallb (fun c => bool_decide (is_Some (Atob.value c))) l = true.
Proof.
  intros Hl. apply forallb_forall. intros c Hc.
  rewrite Forall_forall in Hl. apply list_elem_of_In, Hl in Hc.
  destruct Hc as (Hv & _). now apply bool_decide_eq_true.
Qed.

(** Bytes survive the passage through the binary string of [atob]. *)
Lemma binary_string_bytes (out : list Z) :
  is_bytes out ->
  map Atob.code
      (list_ascii_of_string
         (string_of_list_ascii (map (fun b => ascii_of_N (Z.to_N b)) out)))
  = out.
Proof.
  intros Hb. rewrite list_ascii_of_string_of_list_ascii.
  induction Hb as [|b out Hb _ IH]; [reflexivity|].
  simpl. rewrite IH. f_equal.
  unfold Atob.code. rewrite N_ascii_embedding by lia. lia.
Qed.

Lemma mod4_offset (q r : nat) : (r < 4)%nat -> ((4 * q + r) mod 4 = r)%nat.
Proof.
  intros Hr. rewrite Nat.add_comm, Nat.mul_comm, Nat.Div0.mod_add.
  now apply Nat.mod_small.
Qed.

Lemma mod4_offset_0 (q : nat) : ((4 * q) mod 4 = 0)%nat.
Proof.
  replace (4 * q)%nat with (4 * q + 0)%nat by lia. apply mod4_offset. lia.
Qed.

Lemma ceil_div3_exact (q : nat) : ceil_div3 (3 * q) = q.
Proof.
  unfold ceil_div3.
  pose proof (Nat.div_mod_eq (3 * q + 2) 3).
  pose proof (Nat.mod_upper_bound (3 * q + 2) 3 ltac:(lia)). lia.
Qed.

Lemma ceil_div3_partial (q r : nat) :
  (0 < r < 3)%nat -> ceil_div3 (3 * q + r) = S q.
Proof.
  intros Hr. unfold ceil_div3.
  pose proof (Nat.div_mod_eq (3 * q + r + 2) 3).
  pose proof (Nat.mod_upper_bound (3 * q + r + 2) 3 ltac:(lia)). lia.
Qed.

(** The decoder of [atob] undoes the encoder. *)
Lemma forgiving_decode_encoded (x : list Z) :
  is_bytes x -> Atob.forgiving_base64_decode (bytesToBase64 x) = Some x.
Proof.
  intros Hb.
  unfold Atob.forgiving_base64_decode.
  rewrite bytesToBase64_cells, join_chars.
  set (q := (length x / 3)%nat).
  assert (Hq : (3 * q <= length x < 3 * q + 3)%nat).
  { unfold q. pose proof (Nat.div_mod_eq (length x) 3).
    pose proof (Nat.mod_upper_bound (length x) 3 ltac:(lia)). lia. }
  destruct (decode_full_groups x Hb q 0) as (Fb & Fl & Fd); [lia|].
  change (drop (3 * 0) x) with x in Fd.
  pose proof (is_bytes_drop x (3 * q) Hb) as Hr.
  pose proof (length_drop x (3 * q)) as HL.
  pose proof (take_drop (3 * q) x) as Hx.
  destruct (drop (3 * q) x) as [|b0 [|b1 [|b2 tl]]] eqn:Hd;
    simpl in HL; [| | |lia].
  - (* the length is a multiple of three *)
    assert (Hn : length x = (3 * q)%nat) by lia.
    rewrite Hn, ceil_div3_exact. fold (group_chars x 0 q).
    rewrite filter_no_whitespace by now apply body_no_whitespace.
    unfold Atob.strip_padding. rewrite Fl, (mod4_offset_0 q). cbn [Nat.eqb].
    rewrite !(drop_pad_body _ Fb).
    rewrite Fl, (mod4_offset_0 q). cbn [Nat.eqb].
    rewrite body_all_valid by assumption.
    rewrite <- (app_nil_r (group_chars x 0 q)), Fd.
    rewrite app_nil_r in Hx. cbn [Atob.decode_loop app]. now rewrite Hx.
  - (* one byte is left over *)
    apply Forall_cons in Hr as [H0 _].
    assert (Hn : length x = (3 * q + 1)%nat) by lia.
    destruct (decode_group_one x q b0 Hd H0)
      as (x0 & x1 & p & Hc & Hbody & Hp & Hw & Hdec).
    rewrite Hn, ceil_div3_partial by lia.
    replace (S q) with (q + 1)%nat by lia.
    rewrite seq_app, map_app, concat_app, omap_app.
    fold (group_chars x 0 q). cbn [seq map concat Nat.add]. rewrite app_nil_r, Hc.
    cbn [omap list_omap id].
    assert (Hall : Forall body_char (group_chars x 0 q ++ [x0; x1]))
      by (apply Forall_app; split; assumption).
    rewrite filter_no_whitespace.
    2:{ apply Forall_app. split; [now apply body_no_whitespace|].
        apply Forall_app with (l1 := [x0; x1]) (l2 := [p; p]).
        split; [now apply body_no_whitespace | now repeat constructor]. }
    unfold Atob.strip_padding.
    rewrite length_app, Fl. cbn [length].
    replace (4 * q + 4)%nat with (4 * S q + 0)%nat by lia.
    rewrite mod4_offset by lia. cbn [Nat.eqb].
    change [x0; x1; p; p] with ([x0; x1] ++ [p] ++ [p]).
    rewrite !app_assoc, drop_pad_pad by exact Hp.
    rewrite drop_pad_pad by exact Hp.
    rewrite length_app, Fl. cbn [length].
    rewrite mod4_offset by lia. cbn [Nat.eqb].
    rewrite body_all_valid by assumption.
    rewrite Fd, Hdec. cbn [app]. now rewrite Hx.
  - (* two bytes are left over *)
    apply Forall_cons in Hr as [H0 Hr]. apply Forall_cons in Hr as [H1 _].
    assert (Hn : length x = (3 * q + 2)%nat) by lia.
    destruct (decode_group_two x q b0 b1 Hd H0 H1)
      as (x0 & x1 & x2 & p & Hc & Hbody & Hp & Hw & Hdec).
    rewrite Hn, ceil_div3_partial by lia.
    replace (S q) with (q + 1)%nat by lia.
    rewrite seq_app, map_app, concat_app, omap_app.
    fold (group_chars x 0 q). cbn [seq map concat Nat.add]. rewrite app_nil_r, Hc.
    cbn [omap list_omap id].
    assert (Hall : Forall body_char (group_chars x 0 q ++ [x0; x1; x2]))
      by (apply Forall_app; split; assumption).
    rewrite filter_no_whitespace.
    2:{ apply Forall_app. split; [now apply body_no_whitespace|].
        apply Forall_app with (l1 := [x0; x1; x2]) (l2 := [p]).
        split; [now apply body_no_whitespace | now repeat constructor]. }
    unfold Atob.strip_padding.
    rewrite length_app, Fl. cbn [length].
    replace (4 * q + 4)%nat with (4 * S q + 0)%nat by lia.
    rewrite mod4_offset by lia. cbn [Nat.eqb].
    change [x0; x1; x2; p] with ([x0; x1; x2] ++ [p]).
    rewrite !app_assoc, drop_pad_pad by exact Hp.
    rewrite drop_pad_body by assumption.
    rewrite length_app, Fl. cbn [length].
    rewrite mod4_offset by lia. cbn [Nat.eqb].
    rewrite body_all_valid by assumption.
    rewrite Fd, Hdec. cbn [app]. now rewrite Hx.
Qed.

(** C1. For every byte sequence [x], the empty one included, decoding the
    text that encoding [x] produces returns exactly [x]:
    [base64ToBytes(bytesToBase64(x)) == x]. *)
Theorem base64_round_trip (x : list Z) :
  is_bytes x -> base64ToBytes (bytesToBase64 x) = Some x.
Proof.
  intros Hb. unfold base64ToBytes, Atob.atob.
  rewrite (forgiving_decode_encoded x Hb).
  cbn [fmap option_fmap option_map]. f_equal.
  apply binary_string_bytes, Hb.
Qed.

Lemma base64_round_trip_witness :
  base64ToBytes (bytesToBase64 [83; 72; 65; 68; 255]) = Some [83; 72; 65; 68; 255].
Proof.
  apply (base64_round_trip [83; 72; 65; 68; 255]).
  unfold is_bytes. repeat constructor; lia.
Defined.

(** ** The validator *)

Lemma isValidROM_true_iff (b : list Z) :
  isValidROM b = true <->
  Zlength b = 1048576 /\
  JS.fromCharCode (JS.slice b 0x7FC0 0x7FD5) = JS.code_units goodName /\
  js_add (JS.index b 0x7FDE) (JS.int32_of (JS.index b 0x7FDF) .<< 8)
  = Some goodChecksum.
Proof.
  unfold isValidROM, isValidROM_in, mbind, mret, Id_bind, Id_ret.
  destruct (Z.eqb_spec (Zlength b) 1048576) as [HL|HL]; cbn [negb];
    [|split; [discriminate | tauto]].
  case_bool_decide as HN; cbn [negb]; [|split; [discriminate | tauto]].
  unfold js_ne.
  destruct (js_add _ _) as [c|]; [|split; [discriminate | intros (_&_&?); discriminate]].
  destruct (Z.eqb_spec c goodChecksum) as [->|Hc]; cbn [negb];
    [tauto | split; [discriminate | intros (_&_&?); congruence]].
Qed.

Lemma slice_name_field (b : list Z) :
  Zlength b = 1048576 -> JS.slice b 0x7FC0 0x7FD5 = name_field b.
Proof. intros HL. unfold JS.slice. rewrite HL. reflexivity. Qed.

Lemma fromCharCode_bytes (l : list Z) : is_bytes l -> JS.fromCharCode l = l.
Proof.
  unfold JS.fromCharCode. induction 1 as [|c l Hc _ IH]; [reflexivity|].
  simpl. rewrite IH, Z.mod_small by lia. reflexivity.
Qed.

Lemma goodName_units :
  JS.code_units goodName = JS.code_units "SHADOWRUN" ++ replicate 12 32.
Proof. reflexivity. Qed.

Lemma shl8_byte (h : Z) : 0 <= h < 256 -> h .<< 8 = 256 * h.
Proof.
  intros Hh. apply Z.eqb_eq.
  apply (all_below_spec 256 (fun h => (h .<< 8) =? 256 * h));
    [vm_compute; reflexivity | exact Hh].
Qed.

Lemma index_lookup (b : list Z) (i : Z) :
  0 <= i -> JS.index b i = b !! Z.to_nat i.
Proof.
  intros Hi. unfold JS.index.
  destruct (Z.ltb_spec i 0); [lia | reflexivity].
Qed.

Lemma is_bytes_lookup (b : list Z) (i : nat) (x : Z) :
  is_bytes b -> b !! i = Some x -> 0 <= x < 256.
Proof. intros Hb Hx. exact (proj1 (Forall_lookup _ _) Hb i x Hx). Qed.

Lemma checksum_le16 (b : list Z) :
  is_bytes b ->
  Zlength b = 1048576 ->
  js_add (JS.index b 0x7FDE) (JS.int32_of (JS.index b 0x7FDF) .<< 8)
  = le16_at b 0x7FDE.
Proof.
  intros Hb HL. rewrite Zlength_correct in HL.
  rewrite !index_lookup by lia. unfold le16_at.
  change (0x7FDE + 1) with 0x7FDF.
  destruct (lookup_lt_is_Some_2 b (Z.to_nat 0x7FDE)) as [lo Hlo]; [lia|].
  destruct (lookup_lt_is_Some_2 b (Z.to_nat 0x7FDF)) as [hi Hhi]; [lia|].
  rewrite Hlo, Hhi. cbn [mbind option_bind JS.int32_of default from_option id].
  rewrite (shl8_byte hi) by (eapply is_bytes_lookup; eassumption).
  reflexivity.
Qed.

(** On byte sequences the validator accepts exactly the images of the
    specification. *)
Lemma isValidROM_valid_image (b : list Z) :
  is_bytes b -> (isValidROM b = true <-> valid_image b).
Proof.
  intros Hb. rewrite isValidROM_true_iff. unfold valid_image.
  split; intros (HL & HN & HC); (split; [exact HL|]).
  - rewrite slice_name_field, goodName_units in HN by exact HL.
    rewrite fromCharCode_bytes in HN
      by (apply Forall_take, Forall_drop, Hb).
    rewrite checksum_le16 in HC by assumption. split; assumption.
  - rewrite slice_name_field, goodName_units by exact HL.
    rewrite fromCharCode_bytes by (apply Forall_take, Forall_drop, Hb).
    rewrite checksum_le16 by assumption. split; assumption.
Qed.

Lemma isValidROM_length (b : list Z) :
  isValidROM b = true -> length b = Z.to_nat 1048576.
Proof.
  rewrite isValidROM_true_iff, Zlength_correct. intros (HL & _). lia.
Qed.

Lemma name_field_lookup (b : list Z) (i : nat) :
  (Z.to_nat 0x7FC0 <= i < Z.to_nat 0x7FD5)%nat ->
  name_field b !! (i - Z.to_nat 0x7FC0)%nat = b !! i.
Proof.
  intros Hi. unfold name_field.
  rewrite lookup_take_lt by lia. rewrite lookup_drop. f_equal. lia.
Qed.

(** A valid image stops being valid when one byte of a field changes. *)
Lemma isValidROM_mutation (b : list Z) (i : nat) (v : Z) :
  is_bytes b -> isValidROM b = true ->
  in_fields i -> 0 <= v < 256 -> b !! i <> Some v ->
  isValidROM (<[i := v]> b) = false.
Proof.
  intros Hb Hok Hi Hv Hne.
  pose proof (isValidROM_length b Hok) as Hlen.
  assert (Hb' : is_bytes (<[i := v]> b)) by (apply Forall_insert; assumption).
  destruct (isValidROM (<[i := v]> b)) eqn:Hok'; [exfalso | reflexivity].
  apply (isValidROM_valid_image _ Hb) in Hok as (_ & HN & HC).
  apply (isValidROM_valid_image _ Hb') in Hok' as (_ & HN' & HC').
  assert (Hiv : <[i := v]> b !! i = Some v).
  { apply list_lookup_insert_eq. unfold in_fields in Hi. lia. }
  destruct Hi as [Hi|[->| ->]].
  - rewrite <- HN in HN'.
    apply (f_equal (fun l => l !! (i - Z.to_nat 0x7FC0)%nat)) in HN'.
    rewrite !name_field_lookup in HN' by exact Hi. congruence.
  - unfold le16_at in HC, HC'. change (0x7FDE + 1) with 0x7FDF in *.
    rewrite Hiv in HC'. rewrite list_lookup_insert_ne in HC' by lia.
    destruct (b !! Z.to_nat 0x7FDE) as [lo|]; [|discriminate].
    destruct (b !! Z.to_nat 0x7FDF) as [hi|]; [|discriminate].
    cbn [mbind option_bind] in HC, HC'.
    apply Hne. f_equal. injection HC as HC. injection HC' as HC'. lia.
  - unfold le16_at in HC, HC'. change (0x7FDE + 1) with 0x7FDF in *.
    rewrite Hiv in HC'. rewrite list_lookup_insert_ne in HC' by lia.
    destruct (b !! Z.to_nat 0x7FDE) as [lo|]; [|discriminate].
    destruct (b !! Z.to_nat 0x7FDF) as [hi|]; [|discriminate].
    cbn [mbind option_bind] in HC, HC'.
    apply Hne. f_equal. injection HC as HC. injection HC' as HC'. lia.
Qed.

Lemma isValidROM_other_length (b b' : list Z) :
  isValidROM b = true -> length b' <> length b -> isValidROM b' = false.
Proof.
  intros Hok Hlen. pose proof (isValidROM_length b Hok) as HL.
  destruct (isValidROM b') eqn:Hok'; [exfalso | reflexivity].
  apply isValidROM_length in Hok'. lia.
Qed.

Lemma is_bytes_check (l : list Z) :
  forallb (fun b => (0 <=? b) && (b <? 256)) l = true -> is_bytes l.
Proof.
  intros H. apply Forall_forall. intros x Hx.
  rewrite forallb_forall in H. apply list_elem_of_In, H in Hx. lia.
Qed.

Lemma goodROM_bytes : is_bytes goodROM.
Proof. apply is_bytes_check. vm_compute. reflexivity. Qed.

(** C2. For every byte sequence [b], [isValidROM(b)] returns true if and
    only if (a) the length of [b] is exactly 1,048,576, (b) the 21 bytes at
    offset 0x7FC0 are ASCII "SHADOWRUN" followed by 12 spaces, and (c) the
    bytes at 0x7FDE and 0x7FDF, read as a little-endian 16-bit integer, are
    0xF834.  Consequently an accepted image is rejected once a single byte
    of either field is changed, and every sequence of another length is
    rejected.  The result is one boolean. *)
Theorem isValidROM_spec (b : list Z) :
  is_bytes b ->
  (isValidROM b = true <-> valid_image b) /\
  (isValidROM b = true ->
   (forall (i : nat) (v : Z),
       in_fields i -> 0 <= v < 256 -> b !! i <> Some v ->
       isValidROM (<[i := v]> b) = false) /\
   (forall b' : list Z, length b' <> length b -> isValidROM b' = false)).
Proof.
  intros Hb. split; [exact (isValidROM_valid_image b Hb)|].
  intros Hok. split.
  - intros i v. now apply isValidROM_mutation.
  - intros b'. now apply isValidROM_other_length.
Qed.

Lemma isValidROM_spec_witness :
  (isValidROM goodROM = true <-> valid_image goodROM) /\
  (isValidROM goodROM = true ->
   (forall (i : nat) (v : Z),
       in_fields i -> 0 <= v < 256 -> goodROM !! i <> Some v ->
       isValidROM (<[i := v]> goodROM) = false) /\
   (forall b' : list Z, length b' <> length goodROM -> isValidROM b' = false)).
Proof.
  apply (isValidROM_spec goodROM).
  apply is_bytes_check. vm_compute. reflexivity.
Defined.

(** C9. [isValidROM] never reads outside its input: with every read
    bounds-checked the validator still returns, and returns what
    [isValidROM] returns, for every input; the reads at 0x7FC0..0x7FD4,
    0x7FDE and 0x7FDF only happen once the length is known to be
    1,048,576, so the out-of-bounds branch is never taken. *)
Theorem isValidROM_in_bounds (romBytes : list Z) :
  isValidROM_checked romBytes = Some (isValidROM romBytes) /\
  isValidROM_guarded romBytes = Some (isValidROM romBytes).
Proof.
  unfold isValidROM_checked, isValidROM_guarded, isValidROM, isValidROM_in.
  destruct (Z.eqb_spec (Zlength romBytes) 1048576) as [HL|HL]; cbn [negb];
    [|split; reflexivity].
  unfold length_checked, checked_slice, checked_index. rewrite HL.
  cbn [Z.eqb Pos.eqb Z.leb Z.ltb Z.compare Pos.compare Pos.compare_cont andb
       mbind option_bind mret option_ret Id_bind Id_ret].
  unfold mbind, mret, Id_bind, Id_ret.
  destruct (negb (bool_decide _)); [split; reflexivity|].
  destruct (js_ne _ _); split; reflexivity.
Qed.

(** ** The page controller *)

Lemma updateStatusMessage_plain (message : string) (p : page) :
  updateStatusMessage message "" p = Returns tt (status_plain message p).
Proof. reflexivity. Qed.

Lemma updateStatusMessage_danger (message : string) (p : page) :
  updateStatusMessage message "danger" p = Returns tt (status_danger message p).
Proof. reflexivity. Qed.

Lemma status_danger_shows (message : string) (p : page) :
  shows_danger message (status_danger message p).
Proof.
  unfold shows_danger, status_danger.
  cbn [on_statusMessage on_statusIcon set_innerText classList_remove
       classList_add el_statusMessage el_statusIcon innerText classList
       list_to_set foldr].
  repeat split; set_unfold; intuition congruence.
Qed.

Lemma status_danger_frame (message : string) (p : page) :
  same_but_status p (status_danger message (status_plain "" p)).
Proof. repeat split. Qed.

Lemma generate_cases (p : page) :
  generate p =
  match localStorage p !! prefixed "rom_base64" with
  | None => Returns tt (status_danger "No ROM selected" (status_plain "" p))
  | Some text =>
      match base64ToBytes text with
      | None => Throws (DOMException "InvalidCharacterError") (status_plain "" p)
      | Some bytes =>
          if isValidROM bytes then
            let seed := trim (value (el_seed p)) in
            if integerRegex_test seed then
              Returns tt
                (postMessage
                   (RandomizerArgs bytes seed (checked (el_itemDuplication p))
                      (checked (el_spoilerLog p)))
                   (generating p))
            else
              Returns tt (status_danger "Seed must be a number" (status_plain "" p))
          else
            Returns tt (status_danger "Invalid ROM selected" (status_plain "" p))
      end
  end.
Proof.
  unfold generate.
  cbv [mbind Script_bind storageWrapper_getItem get_page mret Script_ret].
  rewrite updateStatusMessage_plain.
  change (localStorage (status_plain "" p)) with (localStorage p).
  destruct (localStorage p !! prefixed "rom_base64") as [text|]; [|reflexivity].
  unfold base64ToBytes_script.
  destruct (base64ToBytes text) as [bytes|]; [|reflexivity].
  cbv [mret Script_ret].
  destruct (isValidROM bytes); cbn [negb]; [|reflexivity].
  change (value (el_seed (status_plain "" p))) with (value (el_seed p)).
  destruct (integerRegex_test (trim (value (el_seed p)))); reflexivity.
Qed.

Lemma append_one_ne {A : Type} (l : list A) (x : A) : l ++ [x] <> l.
Proof.
  intros H. apply (f_equal length) in H. rewrite length_app in H.
  simpl in H. lia.
Qed.

Lemma status_danger_posted (message : string) (p : page) :
  worker_posted (status_danger message (status_plain "" p)) = worker_posted p.
Proof. reflexivity. Qed.

Lemma generate_rejected (message : string) (p : page) :
  rejected_with message p
    (Returns tt (status_danger message (status_plain "" p))).
Proof.
  eexists. split; [reflexivity|]. split.
  - apply status_danger_shows.
  - apply status_danger_frame.
Qed.

(** C3. [generate] posts a job to the worker if and only if a record is
    stored, its decoded bytes pass the validator, and the trimmed seed
    matches [^[0-9]+$]; the job carries those bytes and that seed.  When a
    check fails it shows the message of that check ("No ROM selected",
    "Invalid ROM selected", "Seed must be a number"), posts nothing and
    changes nothing but the status line.  The seeds "0", "4294967295" and
    "007" pass the seed check; "", "12.3", "-5" and "abc" do not. *)
Theorem generate_dispatch (p : page) :
  ((exists m, worker_posted (final_page (generate p)) = worker_posted p ++ [m])
   <-> exists bytes seed, submission_accepted p bytes seed) /\
  (forall bytes seed,
      submission_accepted p bytes seed ->
      exists p', generate p = Returns tt p' /\
        worker_posted p' =
        worker_posted p ++
          [RandomizerArgs bytes seed (checked (el_itemDuplication p))
             (checked (el_spoilerLog p))]) /\
  ((~ exists bytes seed, submission_accepted p bytes seed) ->
   worker_posted (final_page (generate p)) = worker_posted p) /\
  (localStorage p !! prefixed "rom_base64" = None ->
   rejected_with "No ROM selected" p (generate p)) /\
  (forall text bytes,
      localStorage p !! prefixed "rom_base64" = Some text ->
      base64ToBytes text = Some bytes ->
      isValidROM bytes = false ->
      rejected_with "Invalid ROM selected" p (generate p)) /\
  (forall text bytes,
      localStorage p !! prefixed "rom_base64" = Some text ->
      base64ToBytes text = Some bytes ->
      isValidROM bytes = true ->
      integerRegex_test (trim (value (el_seed p))) = false ->
      rejected_with "Seed must be a number" p (generate p)) /\
  Forall (fun s => integerRegex_test (trim s) = true)
         ["0"; "4294967295"; "007"]%string /\
  Forall (fun s => integerRegex_test (trim s) = false)
         [""; "12.3"; "-5"; "abc"]%string.
Proof.
  rewrite generate_cases. unfold submission_accepted.
  destruct (localStorage p !! prefixed "rom_base64") as [text|] eqn:Hrec.
  2:{ (* no record *)
      cbn [final_page]. rewrite status_danger_posted.
      repeat split; try (repeat constructor; fail).
      - intros [m Hm]. symmetry in Hm. now apply append_one_ne in Hm.
      - intros (bytes & seed & (text & Ht & _) & _). discriminate.
      - intros bytes seed ((text & Ht & _) & _). discriminate.
      - intros _. apply generate_rejected.
      - intros text bytes Ht. discriminate.
      - intros text bytes Ht. discriminate. }
  destruct (base64ToBytes text) as [bytes|] eqn:Hdec.
  2:{ (* the record is not Base64 text *)
      cbn [final_page].
      repeat split; try (repeat constructor; fail).
      - intros [m Hm]. symmetry in Hm. now apply append_one_ne in Hm.
      - intros (bytes & seed & (text' & Ht & Hd) & _). congruence.
      - intros bytes seed ((text' & Ht & Hd) & _). congruence.
      - discriminate.
      - intros text' bytes Ht Hd. congruence.
      - intros text' bytes Ht Hd. congruence. }
  destruct (isValidROM bytes) eqn:Hval.
  2:{ (* the image is not valid *)
      cbn [final_page]. rewrite status_danger_posted.
      repeat split; try (repeat constructor; fail).
      - intros [m Hm]. symmetry in Hm. now apply append_one_ne in Hm.
      - intros (bytes' & seed & (text' & Ht & Hd) & Hv & _). congruence.
      - intros bytes' seed ((text' & Ht & Hd) & Hv & _). congruence.
      - discriminate.
      - intros text' bytes' Ht Hd _. apply generate_rejected.
      - intros text' bytes' Ht Hd Hv. congruence. }
  cbv zeta.
  destruct (integerRegex_test (trim (value (el_seed p)))) eqn:Hseed.
  2:{ (* the seed is not a number *)
      cbn [final_page]. rewrite status_danger_posted.
      repeat split; try (repeat constructor; fail).
      - intros [m Hm]. symmetry in Hm. now apply append_one_ne in Hm.
      - intros (bytes' & seed & _ & _ & -> & Hs). congruence.
      - intros bytes' seed (_ & _ & -> & Hs). congruence.
      - discriminate.
      - intros text' bytes' Ht Hd Hv. congruence.
      - intros text' bytes' Ht Hd Hv _. apply generate_rejected. }
  (* every check passes *)
  cbn [final_page].
  repeat split; try (repeat constructor; fail).
  - intros _. exists bytes, (trim (value (el_seed p))). eauto 10.
  - intros _. eexists. reflexivity.
  - intros bytes' seed ((text' & Ht & Hd) & _ & -> & _).
    eexists. split; [reflexivity|]. cbn. congruence.
  - intros Hno. exfalso. apply Hno.
    exists bytes, (trim (value (el_seed p))). eauto 10.
  - discriminate.
  - intros text' bytes' Ht Hd Hv. congruence.
  - intros text' bytes' Ht Hd Hv Hs. congruence.
Qed.

Lemma updateFileButton_cases (p : page) :
  updateFileButton p =
  match localStorage p !! prefixed "rom_base64" with
  | None => Returns tt (button_shown NoImage p)
  | Some text =>
      match base64ToBytes text with
      | None =>
          Throws (DOMException "InvalidCharacterError")
            (on_fileButton
               (classList_remove ["btn-success"; "btn-danger"; "btn-warning"]) p)
      | Some bytes => Returns tt (button_shown (ui_of_image (Some bytes)) p)
      end
  end.
Proof.
  unfold updateFileButton.
  cbv [mbind Script_bind storageWrapper_getItem get_page mret Script_ret modify].
  cbn [localStorage on_fileButton].
  destruct (localStorage p !! prefixed "rom_base64") as [text|]; [|reflexivity].
  unfold base64ToBytes_script.
  destruct (base64ToBytes text) as [bytes|]; [|reflexivity].
  cbv [mret Script_ret ui_of_image].
  destruct (isValidROM bytes); reflexivity.
Qed.

Lemma button_shown_class (u : ui_state) (p : page) (c : string) :
  c ∈ ["btn-success"; "btn-danger"; "btn-warning"] ->
  c ∈ classList (el_fileButton (button_shown u p)) <-> c = button_class u.
Proof.
  intros Hc. unfold button_shown.
  cbn [on_generate on_fileButton set_innerText classList_remove classList_add
       el_fileButton classList list_to_set foldr].
  set_unfold. intuition congruence.
Qed.

Lemma button_shown_ui (u : ui_state) (p : page) : shows_ui u (button_shown u p).
Proof.
  split; [reflexivity|]. split; [|reflexivity].
  intros u'. rewrite button_shown_class.
  - destruct u, u'; simpl; split; intros H; try reflexivity; discriminate.
  - destruct u'; simpl; set_unfold; tauto.
Qed.

Lemma button_shown_frame (u : ui_state) (p : page) :
  same_but_controls p (button_shown u p).
Proof. repeat split. Qed.

Lemma button_shown_visible (u : ui_state) (p q : page) :
  visible (button_shown u p) = visible (button_shown u q).
Proof.
  unfold visible. f_equal. f_equal.
  apply map_ext_in. intros c Hc. apply list_elem_of_In in Hc.
  apply bool_decide_ext. now rewrite !button_shown_class.
Qed.

(** C8. What the page shows is a function of the store and of the
    validator's verdict alone.  After [updateFileButton]: with no record
    the page shows the "no image" state and submission is disabled; with a
    record whose decoded bytes the validator rejects it shows the "invalid"
    state and submission is disabled; with a record whose decoded bytes the
    validator accepts it shows the "ready" state and submission is enabled.
    Two pages with the same store end up showing the same. *)
Theorem updateFileButton_shows (p : page) :
  (localStorage p !! prefixed "rom_base64" = None ->
   exists p', updateFileButton p = Returns tt p' /\
              shows_ui NoImage p' /\ same_but_controls p p') /\
  (forall text bytes,
      localStorage p !! prefixed "rom_base64" = Some text ->
      base64ToBytes text = Some bytes ->
      isValidROM bytes = false ->
      exists p', updateFileButton p = Returns tt p' /\
                 shows_ui InvalidImage p' /\ same_but_controls p p') /\
  (forall text bytes,
      localStorage p !! prefixed "rom_base64" = Some text ->
      base64ToBytes text = Some bytes ->
      isValidROM bytes = true ->
      exists p', updateFileButton p = Returns tt p' /\
                 shows_ui ReadyImage p' /\ same_but_controls p p') /\
  (forall q : page,
      localStorage q = localStorage p ->
      visible_after (updateFileButton q) = visible_after (updateFileButton p)).
Proof.
  rewrite updateFileButton_cases. repeat apply conj.
  - intros ->. eexists. split; [reflexivity|].
    split; [apply button_shown_ui | apply button_shown_frame].
  - intros text bytes -> -> Hv. eexists. split; [reflexivity|].
    cbn [ui_of_image]. rewrite Hv.
    split; [apply button_shown_ui | apply button_shown_frame].
  - intros text bytes -> -> Hv. eexists. split; [reflexivity|].
    cbn [ui_of_image]. rewrite Hv.
    split; [apply button_shown_ui | apply button_shown_frame].
  - intros q Hq. rewrite updateFileButton_cases, Hq.
    destruct (localStorage p !! prefixed "rom_base64") as [text|].
    + destruct (base64ToBytes text) as [bytes|]; [|reflexivity].
      cbn [visible_after]. f_equal. apply button_shown_visible.
    + cbn [visible_after]. f_equal. apply button_shown_visible.
Qed.

(** [changeFileName] when the store's [setItem] throws. *)
Lemma changeFileName_set_throws (backend : setItem_behaviour) (p : page)
    (fileBytes : list Z) (rest : list (list Z))
    (store' : gmap string string) (e : exn) :
  fileName_files p = fileBytes :: rest ->
  backend (localStorage p) (prefixed "rom_base64") (bytesToBase64 fileBytes)
  = (store', Some e) ->
  changeFileName backend p =
  if bool_decide (e = DOMException "QuotaExceededError") then
    Returns tt
      (button_shown NoImage
         (status_danger "Could not store ROM: localStorage quota exceeded"
            (with_localStorage (delete (prefixed "rom_base64"))
               (with_localStorage (fun _ => store') (status_plain "" p)))))
  else Throws e (with_localStorage (fun _ => store') (status_plain "" p)).
Proof.
  intros Hfiles Hset. unfold changeFileName.
  cbv [mbind Script_bind get_page]. rewrite updateStatusMessage_plain.
  change (fileName_files (status_plain "" p)) with (fileName_files p).
  rewrite Hfiles.
  cbv [try_catch storageWrapper_setItem mbind Script_bind get_page].
  change (localStorage (status_plain "" p)) with (localStorage p).
  rewrite Hset. cbv [modify throw].
  case_bool_decide as He; [|reflexivity].
  cbv [mbind Script_bind storageWrapper_removeItem modify].
  rewrite updateStatusMessage_danger, updateFileButton_cases.
  cbn [localStorage status_danger status_plain with_localStorage
       on_statusMessage on_statusIcon].
  rewrite lookup_delete_eq. reflexivity.
Qed.

(** C7. When [changeFileName] stores a newly selected image and the
    store's [setItem] fails because the quota is exceeded, the script
    returns normally, the store afterwards holds no record under the image
    key, whatever the failed call left there, and the status line reports
    the failure; an exception of any other kind is not caught and leaves
    the script. *)
Theorem changeFileName_quota (backend : setItem_behaviour) (p : page)
    (fileBytes : list Z) (rest : list (list Z))
    (store' : gmap string string) (e : exn) :
  fileName_files p = fileBytes :: rest ->
  backend (localStorage p) (prefixed "rom_base64") (bytesToBase64 fileBytes)
  = (store', Some e) ->
  (e = DOMException "QuotaExceededError" ->
   exists p', changeFileName backend p = Returns tt p' /\
     localStorage p' !! prefixed "rom_base64" = None /\
     localStorage p' = delete (prefixed "rom_base64") store' /\
     shows_danger "Could not store ROM: localStorage quota exceeded" p' /\
     shows_ui NoImage p') /\
  (e <> DOMException "QuotaExceededError" ->
   exists p', changeFileName backend p = Throws e p').
Proof.
  intros Hfiles Hset.
  rewrite (changeFileName_set_throws _ _ _ _ _ _ Hfiles Hset).
  split; intros He.
  - rewrite bool_decide_eq_true_2 by exact He.
    eexists. split; [reflexivity|].
    split; [apply lookup_delete_eq|]. split; [reflexivity|].
    split; [|apply button_shown_ui].
    exact (status_danger_shows _ _).
  - rewrite bool_decide_eq_false_2 by exact He. eexists. reflexivity.
Qed.

Lemma changeFileName_quota_witness :
  let backend := quota_backend 4 in
  let p := page_with {[ prefixed "rom_base64" := "TQ=="%string ]} "42"
             [[83; 72; 65; 68; 79; 87]] in
  let e := DOMException "QuotaExceededError" in
  (e = DOMException "QuotaExceededError" ->
   exists p', changeFileName backend p = Returns tt p' /\
     localStorage p' !! prefixed "rom_base64" = None /\
     localStorage p' = delete (prefixed "rom_base64") (localStorage p) /\
     shows_danger "Could not store ROM: localStorage quota exceeded" p' /\
     shows_ui NoImage p') /\
  (e <> DOMException "QuotaExceededError" ->
   exists p', changeFileName backend p = Throws e p').
Proof.
  intros backend p e.
  apply (changeFileName_quota backend p [83; 72; 65; 68; 79; 87] []
           (localStorage p) e).
  - reflexivity.
  - vm_compute. reflexivity.
Defined.

(** ** Fresh seeds *)

Lemma trunc_scaled_range (r : unit_double) :
  unit_double_wf r -> 0 <= trunc_scaled r <= 2 ^ 32 - 1.
Proof.
  intros [He Hm]. unfold trunc_scaled.
  assert (Hp : 0 < 2 ^ exponent r) by (apply Z.pow_pos_nonneg; lia).
  rewrite Z.quot_div_nonneg by lia.
  split; [apply Z.div_pos; lia|].
  assert (mantissa r * 2 ^ 32 / 2 ^ exponent r < 2 ^ 32); [|lia].
  apply Z.div_lt_upper_bound; nia.
Qed.

(** The decimal digits of a number are digits. *)
Lemma string_of_uint_digits (u : Decimal.uint) :
  forallb is_digit (list_ascii_of_string (NilEmpty.string_of_uint u)) = true.
Proof. induction u; simpl; try rewrite IHu; reflexivity. Qed.

Lemma Number_toString_digits (n : Z) :
  0 <= n ->
  exists c cs, list_ascii_of_string (Number_toString n) = c :: cs /\
               forallb is_digit (c :: cs) = true.
Proof.
  intros Hn. unfold Number_toString, Z.to_int.
  destruct n as [|q|q]; [| |lia].
  - exists "0"%char, []. split; reflexivity.
  - cbn [NilZero.string_of_int NilZero.string_of_uint].
    pose proof (string_of_uint_digits (Pos.to_uint q)) as Hd.
    destruct (Pos.to_uint q) as [|u|u|u|u|u|u|u|u|u|u];
      [exists "0"%char, []; split; reflexivity|..];
      (eexists _, _; split; [reflexivity | exact Hd]).
Qed.

Lemma digit_not_whitespace (c : ascii) :
  is_digit c = true -> is_js_whitespace c = false.
Proof. unfold is_digit, is_js_whitespace. lia. Qed.

Lemma trim_start_digit (c : ascii) (cs : list ascii) :
  is_digit c = true -> trim_start (c :: cs) = c :: cs.
Proof. intros Hc. simpl. now rewrite digit_not_whitespace. Qed.

(** [trim] leaves a string of digits alone. *)
Lemma trim_digits (s : string) (c : ascii) (cs : list ascii) :
  list_ascii_of_string s = c :: cs ->
  forallb is_digit (c :: cs) = true ->
  trim s = s.
Proof.
  intros Hs Hd. unfold trim. rewrite Hs.
  rewrite forallb_forall in Hd.
  rewrite trim_start_digit by (apply Hd; now left).
  assert (Hr : trim_start (rev (c :: cs)) = rev (c :: cs)).
  { destruct (rev (c :: cs)) as [|d ds] eqn:E; [reflexivity|].
    apply trim_start_digit, Hd, in_rev. rewrite E. now left. }
  rewrite Hr, rev_involutive, <- Hs.
  apply string_of_list_ascii_of_string.
Qed.

Lemma Number_toString_accepted (n : Z) :
  0 <= n -> integerRegex_test (trim (Number_toString n)) = true.
Proof.
  intros Hn. destruct (Number_toString_digits n Hn) as (c & cs & Hs & Hd).
  rewrite (trim_digits _ c cs Hs Hd). unfold integerRegex_test.
  rewrite Hs. exact Hd.
Qed.

Lemma newSeed_page (r : unit_double) (p : page) :
  newSeed r p =
  Returns tt (on_seed (set_value (Number_toString (trunc_scaled r)))
                (status_plain "" p)).
Proof. reflexivity. Qed.

(** C10. A fresh seed is always accepted: for every value [r] of
    [Math.random()], a double in [0, 1), [Math.trunc(r * 2**32)] is an
    integer in 0..2^32-1, [newSeed] puts its decimal representation into
    the seed field, that text matches [^[0-9]+$], and a [generate] that
    follows does not answer "Seed must be a number". *)
Theorem newSeed_accepted (r : unit_double) (p : page) :
  unit_double_wf r ->
  0 <= trunc_scaled r <= 2 ^ 32 - 1 /\
  exists p',
    newSeed r p = Returns tt p' /\
    value (el_seed p') = Number_toString (trunc_scaled r) /\
    integerRegex_test (trim (value (el_seed p'))) = true /\
    innerText (el_statusMessage (final_page (generate p')))
    <> "Seed must be a number"%string.
Proof.
  intros Hr. pose proof (trunc_scaled_range r Hr) as Hn.
  split; [exact Hn|].
  rewrite newSeed_page. eexists. split; [reflexivity|].
  split; [reflexivity|].
  assert (Hok : integerRegex_test
                  (trim (Number_toString (trunc_scaled r))) = true)
    by (apply Number_toString_accepted; lia).
  split; [exact Hok|].
  rewrite generate_cases.
  cbn [el_seed on_seed set_value value localStorage status_plain
       on_statusMessage on_statusIcon].
  destruct (localStorage p !! prefixed "rom_base64") as [text|];
    [|cbn; discriminate].
  destruct (base64ToBytes text) as [bytes|]; [|cbn; discriminate].
  destruct (isValidROM bytes); [|cbn; discriminate].
  cbv zeta. rewrite Hok. cbn. discriminate.
Qed.

Lemma newSeed_accepted_witness :
  let r := UnitDouble 5 3 in
  let p := page_with ∅ "" [] in
  0 <= trunc_scaled r <= 2 ^ 32 - 1 /\
  exists p',
    newSeed r p = Returns tt p' /\
    value (el_seed p') = Number_toString (trunc_scaled r) /\
    integerRegex_test (trim (value (el_seed p'))) = true /\
    innerText (el_statusMessage (final_page (generate p')))
    <> "Seed must be a number"%string.
Proof.
  intros r p. apply (newSeed_accepted r p).
  unfold unit_double_wf, r. simpl. lia.
Defined.

(** ** The worker *)

(** C4, as the worker builds it.  For every generation request the
    argument vector is: the script's name; the forced dry-run flag; then
    [--seed <text>] if and only if the seed text is non-empty; then
    [--allow-item-duplication] if and only if the duplication flag is set;
    then [--spoiler-log] if and only if the log flag is set; then the
    end-of-options marker [--]; then the written image's path. *)
Theorem mockArgv_vector (args : randomizerArgs) :
  mockArgv args =
  ["shadowrun_randomizer.py"; "--dry-run"]
  ++ (if bool_decide (seedString args = "") then [] else ["--seed"; seedString args])
  ++ (if itemDuplication args then ["--allow-item-duplication"] else [])
  ++ (if spoilerLog args then ["--spoiler-log"] else [])
  ++ ["--"; romFileName].
Proof.
  unfold mockArgv.
  destruct (bool_decide (seedString args = "")), (itemDuplication args),
    (spoilerLog args); reflexivity.
Qed.

(** The vector is not the bare list of flags and path: it starts with the
    script's name and has [--] before the path. *)
Lemma mockArgv_not_listed :
  mockArgv (RandomizerArgs [] "42" false false)
  <> listed_argv (RandomizerArgs [] "42" false false).
Proof. vm_compute. discriminate. Qed.

(** *** The basename *)

Lemma split_last_dot_None (s : list ascii) :
  split_last_dot s = None <-> ~ In "."%char s.
Proof.
  induction s as [|c s IH]; simpl; [tauto|].
  destruct (split_last_dot s) as [[b a]|].
  - split; [discriminate|]. intros H. exfalso. apply H. right.
    destruct (in_dec ascii_dec "."%char s) as [Hin|Hin]; [exact Hin|].
    apply IH in Hin. discriminate.
  - destruct (Ascii.eqb_spec c ".") as [->|Hc].
    + split; [discriminate | intros H; exfalso; apply H; now left].
    + split; [|reflexivity]. intros _ [H|H]; [congruence|].
      now apply (proj1 IH).
Qed.

Lemma split_last_dot_Some (s before after : list ascii) :
  split_last_dot s = Some (before, after) <->
  s = before ++ "."%char :: after /\ ~ In "."%char after.
Proof.
  revert before. induction s as [|c s IH]; intros before; simpl.
  - split; [discriminate|]. intros [H _]. now destruct before.
  - destruct (split_last_dot s) as [[b a]|] eqn:E.
    + split.
      * intros [= <- <-]. destruct (proj1 (IH b) eq_refl) as [-> Ha].
        split; [reflexivity | exact Ha].
      * intros [Hs Ha]. destruct before as [|c' before'].
        -- simpl in Hs. injection Hs as -> ->.
           apply split_last_dot_None in Ha. congruence.
        -- simpl in Hs. injection Hs as -> Hs.
           pose proof (proj2 (IH before') (conj Hs Ha)) as H.
           now injection H as -> ->.
    + pose proof (proj1 (split_last_dot_None s) E) as Hno.
      destruct (Ascii.eqb_spec c ".") as [->|Hc].
      * split.
        -- intros [= <- <-]. split; [reflexivity | exact Hno].
        -- intros [Hs Ha]. destruct before as [|c' before'].
           ++ simpl in Hs. now injection Hs as ->.
           ++ simpl in Hs. injection Hs as <- Hs. exfalso. apply Hno.
              rewrite Hs. apply in_or_app. right. now left.
      * split; [discriminate|]. intros [Hs Ha].
        destruct before as [|c' before'].
        -- simpl in Hs. injection Hs as -> _. congruence.
        -- simpl in Hs. injection Hs as _ Hs. exfalso. apply Hno.
           rewrite Hs. apply in_or_app. right. now left.
Qed.

Lemma list_ascii_of_append (s t : string) :
  list_ascii_of_string (s +:+ t)
  = list_ascii_of_string s ++ list_ascii_of_string t.
Proof. induction s as [|c s IH]; simpl; [reflexivity | now rewrite IH]. Qed.

Lemma rpartition_dot_split (name stem ext : string) :
  split_at_final_dot name stem ext -> rpartition_dot name = (stem, ".", ext)%string.
Proof.
  intros [-> Hext]. unfold rpartition_dot.
  assert (H : split_last_dot (list_ascii_of_string (stem +:+ "." +:+ ext))
              = Some (list_ascii_of_string stem, list_ascii_of_string ext)).
  { apply split_last_dot_Some. split; [|exact Hext].
    now rewrite !list_ascii_of_append. }
  rewrite H, !string_of_list_ascii_of_string. reflexivity.
Qed.

Lemma rpartition_dot_cases (name : string) :
  (exists stem ext, split_at_final_dot name stem ext) \/
  rpartition_dot name = (""%string, ""%string, name).
Proof.
  unfold rpartition_dot.
  destruct (split_last_dot (list_ascii_of_string name)) as [[b a]|] eqn:E;
    [left | now right].
  apply split_last_dot_Some in E as [Hs Ha].
  exists (string_of_list_ascii b), (string_of_list_ascii a). split.
  - rewrite <- (string_of_list_ascii_of_string name), Hs.
    rewrite <- (string_of_list_ascii_of_string
                  (string_of_list_ascii b +:+ "." +:+ string_of_list_ascii a)).
    apply (f_equal string_of_list_ascii).
    now rewrite !list_ascii_of_append, !list_ascii_of_string_of_list_ascii.
  - unfold no_dot. now rewrite list_ascii_of_string_of_list_ascii.
Qed.

Lemma truthy_true (s : string) : s <> ""%string -> truthy s = true.
Proof. intros H. unfold truthy. now rewrite bool_decide_eq_false_2. Qed.

(** C5. The packager's basename is the stem when the chosen output name,
    split around its final dot, has a non-empty stem and a non-empty
    extension; otherwise it is the chosen name unchanged.  So "foo.sfc"
    gives "foo", "foo" gives "foo" and ".sfc" gives ".sfc". *)
Theorem newBasename_rule (name : string) :
  (forall stem ext,
      split_at_final_dot name stem ext ->
      stem <> ""%string -> ext <> ""%string ->
      newBasename name = stem) /\
  ((forall stem ext,
       split_at_final_dot name stem ext -> stem = ""%string \/ ext = ""%string) ->
   newBasename name = name) /\
  newBasename "foo.sfc" = "foo"%string /\
  newBasename "foo" = "foo"%string /\
  newBasename ".sfc" = ".sfc"%string.
Proof.
  split; [|split; [|repeat split]].
  - intros stem ext Hsplit Hs He. unfold newBasename.
    rewrite (rpartition_dot_split _ _ _ Hsplit).
    now rewrite !truthy_true.
  - intros Hnone. unfold newBasename.
    destruct (rpartition_dot_cases name) as [(stem & ext & Hsplit)|Hno].
    + rewrite (rpartition_dot_split _ _ _ Hsplit).
      destruct (Hnone stem ext Hsplit) as [-> | ->]; [reflexivity|].
      unfold truthy at 2. rewrite bool_decide_eq_true_2 by reflexivity.
      now rewrite andb_false_r.
    + rewrite Hno. reflexivity.
Qed.

(** *** The archive *)

Lemma append_inj_l (b s t : string) : b +:+ s = b +:+ t -> s = t.
Proof.
  induction b as [|c b IH]; simpl; [trivial|]. intros [= H]. now apply IH.
Qed.

Lemma append_String (c : ascii) (s t : string) :
  String c s +:+ t = String c (s +:+ t).
Proof. reflexivity. Qed.

Lemma no_NUL_String (c : ascii) (s : string) :
  no_NUL (String c s) <-> c <> NUL /\ no_NUL s.
Proof.
  unfold no_NUL. cbn [list_ascii_of_string In]. intuition congruence.
Qed.

Lemma no_NUL_dec (s : string) : {no_NUL s} + {~ no_NUL s}.
Proof.
  unfold no_NUL.
  destruct (in_dec ascii_dec NUL (list_ascii_of_string s)); [right | left]; tauto.
Qed.

(** Cutting a name that starts with a part free of NUL cuts what follows
    that part. *)
Lemma until_NUL_append (b t : string) :
  no_NUL b -> until_NUL (b +:+ t) = b +:+ until_NUL t.
Proof.
  induction b as [|c b IH]; intros Hb; [reflexivity|].
  apply no_NUL_String in Hb as [Hc Hb]. rewrite !append_String.
  cbn [until_NUL]. destruct (Ascii.eqb_spec c NUL) as [->|_]; [congruence|].
  now rewrite IH.
Qed.

(** Cutting a name that has a NUL in its first part cuts that part. *)
Lemma until_NUL_append_cut (b t : string) :
  ~ no_NUL b -> until_NUL (b +:+ t) = until_NUL b.
Proof.
  induction b as [|c b IH]; intros Hb.
  - exfalso. apply Hb. unfold no_NUL. simpl. tauto.
  - rewrite append_String. cbn [until_NUL].
    destruct (Ascii.eqb_spec c NUL) as [->|Hc]; [reflexivity|].
    rewrite IH; [reflexivity|]. intros Hn. apply Hb.
    apply no_NUL_String. now split.
Qed.

Lemma utf8_length_append (s t : string) :
  utf8_length (s +:+ t) = utf8_length s + utf8_length t.
Proof.
  induction s as [|c s IH]; [reflexivity|].
  rewrite append_String. cbn [utf8_length]. rewrite IH. lia.
Qed.

Lemma append_nonempty_r (s t : string) : t <> ""%string -> s +:+ t <> ""%string.
Proof. destruct s; [trivial | discriminate]. Qed.

(** The two member names, as [ZipInfo] holds them, are empty together and
    have encodings of the same length. *)
Lemma member_names_alike (b : string) :
  (until_NUL (b +:+ ".sfc") = ""%string <-> until_NUL (b +:+ ".txt") = ""%string) /\
  utf8_length (until_NUL (b +:+ ".sfc")) = utf8_length (until_NUL (b +:+ ".txt")).
Proof.
  destruct (no_NUL_dec b) as [Hb|Hb].
  - rewrite !(until_NUL_append _ _ Hb). cbn [until_NUL Ascii.eqb Bool.eqb NUL].
    split; [|now rewrite !utf8_length_append].
    split; intros H; exfalso; revert H; now apply append_nonempty_r.
  - rewrite !(until_NUL_append_cut _ _ Hb). tauto.
Qed.

(** What [writestr] does, by cases on the name [ZipInfo] holds. *)
Lemma writestr_cases (name : string) (data : member_data) (zf : ZipFile) :
  (until_NUL name = ""%string /\ writestr name data zf = inl IndexError) \/
  (until_NUL name <> ""%string /\ 65535 < utf8_length (until_NUL name) /\
   writestr name data zf = inl struct_error) \/
  (until_NUL name <> ""%string /\ utf8_length (until_NUL name) <= 65535 /\
   writestr name data zf = inr (zf ++ [(until_NUL name, data)])).
Proof.
  unfold writestr. cbv zeta. case_bool_decide as He; [now left|]. right.
  destruct (Z.ltb_spec 65535 (utf8_length (until_NUL name))); [left | right];
    auto.
Qed.

(** What the Python fragment does, by cases on the first member's name. *)
Lemma package_cases (run : script_run) :
  let basename := newBasename (outFileName run) in
  let member := until_NUL (basename +:+ ".sfc") in
  (member = ""%string /\ package run = inl IndexError) \/
  (member <> ""%string /\ 65535 < utf8_length member /\
   package run = inl struct_error) \/
  (member <> ""%string /\ utf8_length member <= 65535 /\
   package run =
     inr (GeneratedSeed
            [(member, Bytes (module_romBytes run));
             (until_NUL (basename +:+ ".txt"), Text (capturedOutput run))]
            (basename +:+ ".zip") (module_attemptNumber run))).
Proof.
  intros basename member. unfold package. fold basename.
  destruct (member_names_alike basename) as [Hempty Hlen].
  destruct (writestr_cases (basename +:+ ".sfc") (Bytes (module_romBytes run)) [])
    as [[He ->]|[(Hne & Hl & ->)|(Hne & Hl & ->)]];
    [left; now split | right; left; now repeat split |].
  right. right. split; [exact Hne|]. split; [exact Hl|].
  destruct (writestr_cases (basename +:+ ".txt") (Text (capturedOutput run))
              ([] ++ [(until_NUL (basename +:+ ".sfc"), Bytes (module_romBytes run))]))
    as [[He _]|[(_ & Hl' & _)|(_ & _ & ->)]].
  - exfalso. apply Hne, Hempty, He.
  - exfalso. fold member in Hl. rewrite <- Hlen in Hl'. fold member in Hl'. lia.
  - reflexivity.
Qed.

(** The reply of a completed job. *)
Lemma package_completed (run : script_run) (reply : generatedSeed) :
  let basename := newBasename (outFileName run) in
  package run = inr reply ->
  reply =
    GeneratedSeed
      [(until_NUL (basename +:+ ".sfc"), Bytes (module_romBytes run));
       (until_NUL (basename +:+ ".txt"), Text (capturedOutput run))]
      (basename +:+ ".zip") (module_attemptNumber run).
Proof.
  intros basename H.
  destruct (package_cases run) as [[_ E]|[(_ & _ & E)|(_ & _ & E)]];
    rewrite E in H; [discriminate | discriminate |].
  now injection H as <-.
Qed.

(** C6.  For every completed job whose basename has no NUL character, the
    archive has exactly two members, [<basename>.sfc] holding the produced
    image bytes and [<basename>.txt] holding the captured log, and the
    archive is named [<basename>.zip], all three from the same basename.
    When the basename has a NUL character, the two members are both named
    by what precedes the first NUL of the basename, while the archive is
    still named [<basename>.zip]. *)
Theorem package_archive
    (script : list string -> list (string * list Z) -> script_run)
    (args : randomizerArgs) (reply : generatedSeed) :
  let run := script (mockArgv args) [(romFileName, romBytes args)] in
  let basename := newBasename (outFileName run) in
  runRandomizer script args = inr reply ->
  (no_NUL basename ->
   zipBytes reply =
     [(basename +:+ ".sfc", Bytes (module_romBytes run));
      (basename +:+ ".txt", Text (capturedOutput run))] /\
   basename +:+ ".sfc" <> basename +:+ ".txt") /\
  (~ no_NUL basename ->
   zipBytes reply =
     [(until_NUL basename, Bytes (module_romBytes run));
      (until_NUL basename, Text (capturedOutput run))]) /\
  length (zipBytes reply) = 2%nat /\
  zipFileName reply = basename +:+ ".zip" /\
  attemptNumber reply = module_attemptNumber run.
Proof.
  intros run basename Hdone.
  apply package_completed in Hdone. fold run basename in Hdone. subst reply.
  cbn [zipBytes zipFileName attemptNumber].
  split; [|split; [|repeat split]].
  - intros Hb. rewrite !(until_NUL_append _ _ Hb). split; [reflexivity|].
    intros H. apply append_inj_l in H. discriminate.
  - intros Hb. now rewrite !(until_NUL_append_cut _ _ Hb).
Qed.

Lemma package_archive_witness :
  let script : list string -> list (string * list Z) -> script_run :=
    fun argv files => ScriptRun "Shadowrun_42.sfc" [1; 2; 3] 7 "Seed: 42" in
  let args := RandomizerArgs [] "42" false true in
  let reply :=
    GeneratedSeed
      [("Shadowrun_42.sfc"%string, Bytes [1; 2; 3]);
       ("Shadowrun_42.txt"%string, Text "Seed: 42")]
      "Shadowrun_42.zip" 7 in
  runRandomizer script args = inr reply /\
  no_NUL "Shadowrun_42" /\
  zipBytes reply =
    [("Shadowrun_42.sfc"%string, Bytes [1; 2; 3]);
     ("Shadowrun_42.txt"%string, Text "Seed: 42")] /\
  "Shadowrun_42.sfc"%string <> "Shadowrun_42.txt"%string /\
  length (zipBytes reply) = 2%nat /\
  zipFileName reply = "Shadowrun_42.zip"%string /\
  attemptNumber reply = 7.
Proof.
  intros script args reply.
  assert (Hn : no_NUL "Shadowrun_42").
  { unfold no_NUL. cbn. intuition discriminate. }
  destruct (package_archive script args reply eq_refl) as (H & _ & Hrest).
  destruct (H Hn) as [Hm Hd].
  split; [reflexivity|]. split; [exact Hn|]. split; [exact Hm|].
  split; [exact Hd | exact Hrest].
Defined.

(** A completed job whose output name has a NUL character: the basename is
    [a], NUL, [b]; the archive has two members named [a], and none named
    by the basename. *)
Lemma package_archive_NUL :
  let run := ScriptRun NUL_name [1; 2; 3] 7 "Seed: 42" in
  let basename := newBasename (outFileName run) in
  let script : list string -> list (string * list Z) -> script_run :=
    fun argv files => run in
  basename = String "a" (String NUL "b") /\
  runRandomizer script (RandomizerArgs [] "42" false false)
  = inr (GeneratedSeed
           [("a"%string, Bytes [1; 2; 3]); ("a"%string, Text "Seed: 42")]
           (basename +:+ ".zip") 7) /\
  "a"%string <> basename +:+ ".sfc" /\
  "a"%string <> basename +:+ ".txt".
Proof. vm_compute. repeat split; discriminate. Qed.

(** ** Scenarios with a valid image *)

Lemma goodROM_text_decodes : base64ToBytes (bytesToBase64 goodROM) = Some goodROM.
Proof.
  unfold base64ToBytes, Atob.atob.
  rewrite (forgiving_decode_encoded goodROM goodROM_bytes).
  cbn [fmap option_fmap option_map].
  now rewrite (binary_string_bytes goodROM goodROM_bytes).
Qed.

Lemma ready_page_record (seed_text : string) :
  localStorage (ready_page seed_text) !! prefixed "rom_base64"
  = Some (bytesToBase64 goodROM).
Proof. apply lookup_singleton_eq. Qed.

(** With the valid image stored, the page shows the "ready" state. *)
Example updateFileButton_ready :
  exists p', updateFileButton (ready_page "") = Returns tt p' /\
             shows_ui ReadyImage p'.
Proof.
  rewrite updateFileButton_cases, ready_page_record, goodROM_text_decodes.
  eexists. split; [reflexivity|].
  cbn [ui_of_image]. rewrite isValidROM_goodROM. apply button_shown_ui.
Qed.

(** With the valid image stored and a seed typed with blanks around it,
    [generate] posts one job, with the image and the trimmed seed. *)
Example generate_ready :
  worker_posted (final_page (generate (ready_page " 42 ")))
  = [RandomizerArgs goodROM "42" false false].
Proof.
  rewrite generate_cases, ready_page_record, goodROM_text_decodes,
    isValidROM_goodROM.
  reflexivity.
Qed.

(** The same page with a seed that is not a number: nothing is posted. *)
Example generate_bad_seed :
  rejected_with "Seed must be a number" (ready_page "12.3")
    (generate (ready_page "12.3")).
Proof.
  rewrite generate_cases, ready_page_record, goodROM_text_decodes,
    isValidROM_goodROM.
  apply generate_rejected.
Qed.

(** ** More on the codec *)

Lemma is_pad_eq (p : ascii) : Atob.is_pad p = true -> p = "="%char.
Proof.
  unfold Atob.is_pad, Atob.code. intros H. apply Z.eqb_eq in H.
  rewrite <- (ascii_N_embedding p).
  replace (N_of_ascii p) with 61%N by lia. reflexivity.
Qed.

Lemma body_char_not_pad (l : list ascii) :
  Forall body_char l -> ~ In "="%char l.
Proof.
  intros Hl Hin. rewrite Forall_forall in Hl.
  apply list_elem_of_In, Hl in Hin. destruct Hin as (_ & Hp & _). discriminate.
Qed.

Lemma mod3_offset (q r : nat) : (r < 3)%nat -> ((3 * q + r) mod 3 = r)%nat.
Proof.
  intros Hr. rewrite Nat.add_comm, Nat.mul_comm, Nat.Div0.mod_add.
  now apply Nat.mod_small.
Qed.

(** The characters of an encoded text: a body without [=], then the
    padding. *)
Lemma encoded_chars (x : list Z) :
  is_bytes x ->
  exists body,
    list_ascii_of_string (bytesToBase64 x)
    = body ++ replicate ((3 - length x mod 3) mod 3) "="%char /\
    Forall body_char body /\
    (length body + (3 - length x mod 3) mod 3 = 4 * ceil_div3 (length x))%nat.
Proof.
  intros Hb. rewrite bytesToBase64_cells, join_chars.
  set (q := (length x / 3)%nat).
  assert (Hq : (3 * q <= length x < 3 * q + 3)%nat).
  { unfold q. pose proof (Nat.div_mod_eq (length x) 3).
    pose proof (Nat.mod_upper_bound (length x) 3 ltac:(lia)). lia. }
  destruct (decode_full_groups x Hb q 0) as (Fb & Fl & _); [lia|].
  pose proof (is_bytes_drop x (3 * q) Hb) as Hr.
  pose proof (length_drop x (3 * q)) as HL.
  destruct (drop (3 * q) x) as [|b0 [|b1 [|b2 tl]]] eqn:Hd;
    simpl in HL; [| | |lia].
  - assert (Hn : length x = (3 * q + 0)%nat) by lia.
    rewrite Hn, mod3_offset by lia. rewrite Nat.add_0_r, ceil_div3_exact.
    fold (group_chars x 0 q). exists (group_chars x 0 q).
    cbn [Nat.sub Nat.modulo Nat.divmod snd replicate].
    rewrite app_nil_r. repeat split; [assumption | lia].
  - apply Forall_cons in Hr as [H0 _].
    assert (Hn : length x = (3 * q + 1)%nat) by lia.
    destruct (decode_group_one x q b0 Hd H0)
      as (x0 & x1 & p & Hc & Hbody & Hp & _).
    apply is_pad_eq in Hp. subst p.
    rewrite Hn, mod3_offset, ceil_div3_partial by lia.
    replace (S q) with (q + 1)%nat by lia.
    rewrite seq_app, map_app, concat_app, omap_app.
    fold (group_chars x 0 q). cbn [seq map concat Nat.add]. rewrite app_nil_r, Hc.
    cbn [omap list_omap id Nat.sub Nat.modulo Nat.divmod snd replicate].
    exists (group_chars x 0 q ++ [x0; x1]). rewrite <- app_assoc.
    repeat split; [apply Forall_app; split; assumption|].
    rewrite length_app, Fl. simpl. lia.
  - apply Forall_cons in Hr as [H0 Hr]. apply Forall_cons in Hr as [H1 _].
    assert (Hn : length x = (3 * q + 2)%nat) by lia.
    destruct (decode_group_two x q b0 b1 Hd H0 H1)
      as (x0 & x1 & x2 & p & Hc & Hbody & Hp & _).
    apply is_pad_eq in Hp. subst p.
    rewrite Hn, mod3_offset, ceil_div3_partial by lia.
    replace (S q) with (q + 1)%nat by lia.
    rewrite seq_app, map_app, concat_app, omap_app.
    fold (group_chars x 0 q). cbn [seq map concat Nat.add]. rewrite app_nil_r, Hc.
    cbn [omap list_omap id Nat.sub Nat.modulo Nat.divmod snd replicate].
    exists (group_chars x 0 q ++ [x0; x1; x2]). rewrite <- app_assoc.
    repeat split; [apply Forall_app; split; assumption|].
    rewrite length_app, Fl. simpl. lia.
Qed.

Lemma string_length_chars (s : string) :
  String.length s = length (list_ascii_of_string s).
Proof. induction s as [|c s IH]; simpl; [reflexivity | now rewrite IH]. Qed.

(** A character the decoder has a value for is one of the first 64
    characters of the alphabet. *)
Lemma value_in_alphabet (c : ascii) :
  is_Some (Atob.value c) -> In c (list_ascii_of_string alphabet).
Proof.
  intros [v Hv].
  destruct c as [[] [] [] [] [] [] [] []];
    first [ discriminate Hv | vm_compute; tauto ].
Qed.

(** X1. The text [bytesToBase64] makes of [n] bytes has [4 * ceil(n / 3)]
    characters, all of them from the alphabet; it ends with two, one or
    no [=] as [n] leaves the remainder 1, 2 or 0 modulo 3, and has no
    [=] anywhere else. *)
Theorem bytesToBase64_shape (x : list Z) :
  is_bytes x ->
  let text := list_ascii_of_string (bytesToBase64 x) in
  let pads := ((3 - length x mod 3) mod 3)%nat in
  String.length (bytesToBase64 x) = (4 * ceil_div3 (length x))%nat /\
  (forall c, In c text -> In c (list_ascii_of_string alphabet)) /\
  exists body, text = body ++ replicate pads "="%char /\ ~ In "="%char body.
Proof.
  intros Hb text pads.
  destruct (encoded_chars x Hb) as (body & Htext & Hbody & Hlen).
  fold text pads in Htext, Hlen. split; [|split].
  - rewrite string_length_chars. fold text.
    rewrite Htext, length_app, length_replicate. exact Hlen.
  - intros c Hc. rewrite Htext in Hc. apply in_app_or in Hc as [Hc|Hc].
    + apply value_in_alphabet. rewrite Forall_forall in Hbody.
      apply list_elem_of_In, Hbody in Hc. apply Hc.
    + apply list_elem_of_In, elem_of_replicate in Hc as [-> _].
      vm_compute. tauto.
  - exists body. split; [exact Htext | now apply body_char_not_pad].
Qed.

Lemma bytesToBase64_shape_witness :
  let x := [83; 72; 65; 68] in
  let text := list_ascii_of_string (bytesToBase64 x) in
  let pads := ((3 - length x mod 3) mod 3)%nat in
  String.length (bytesToBase64 x) = (4 * ceil_div3 (length x))%nat /\
  (forall c, In c text -> In c (list_ascii_of_string alphabet)) /\
  exists body, text = body ++ replicate pads "="%char /\ ~ In "="%char body.
Proof.
  intros x. apply (bytesToBase64_shape x).
  unfold is_bytes, x. repeat constructor; lia.
Defined.

(** Decoding what was encoded, for the scripts that store and read back. *)
Lemma encoded_text_decodes (x : list Z) :
  is_bytes x -> base64ToBytes (bytesToBase64 x) = Some x.
Proof.
  intros Hb. unfold base64ToBytes, Atob.atob.
  rewrite (forgiving_decode_encoded x Hb).
  cbn [fmap option_fmap option_map].
  now rewrite (binary_string_bytes x Hb).
Qed.

(** X2. Different byte sequences are stored as different texts. *)
Theorem bytesToBase64_injective (x y : list Z) :
  is_bytes x -> is_bytes y -> x <> y -> bytesToBase64 x <> bytesToBase64 y.
Proof.
  intros Hx Hy Hne Heq. apply Hne.
  pose proof (forgiving_decode_encoded x Hx) as Dx.
  pose proof (forgiving_decode_encoded y Hy) as Dy.
  rewrite Heq in Dx. congruence.
Qed.

Lemma bytesToBase64_injective_witness :
  bytesToBase64 [0; 0; 1] <> bytesToBase64 [0; 0; 1; 0].
Proof.
  apply (bytesToBase64_injective [0; 0; 1] [0; 0; 1; 0]);
    [unfold is_bytes; repeat constructor; lia
    |unfold is_bytes; repeat constructor; lia
    |discriminate].
Defined.

Lemma decoded_bytes (text : string) (bytes : list Z) :
  base64ToBytes text = Some bytes -> is_bytes bytes.
Proof.
  unfold base64ToBytes. destruct (Atob.atob text) as [bin|]; [|discriminate].
  intros [= <-]. apply Forall_forall. intros b Hb.
  apply list_elem_of_In, in_map_iff in Hb as (c & <- & _).
  unfold Atob.code. pose proof (N_ascii_bounded c). lia.
Qed.

(** X3. Whatever text is stored, what [base64ToBytes] makes of it is a
    sequence of bytes, so the validator accepts a decoded record exactly
    when it has the length, the name field and the checksum of the
    specification. *)
Theorem decoded_record_validity (text : string) (bytes : list Z) :
  base64ToBytes text = Some bytes ->
  is_bytes bytes /\ (isValidROM bytes = true <-> valid_image bytes).
Proof.
  intros Hdec. pose proof (decoded_bytes text bytes Hdec) as Hb.
  split; [exact Hb | exact (isValidROM_valid_image bytes Hb)].
Qed.

Lemma decoded_record_validity_witness :
  is_bytes [77; 97] /\ (isValidROM [77; 97] = true <-> valid_image [77; 97]).
Proof. apply (decoded_record_validity "TWE=" [77; 97]). reflexivity. Defined.

(** ** More on the validator *)

Lemma Zlength_insert (b : list Z) (i : nat) (v : Z) :
  Zlength (<[i := v]> b) = Zlength b.
Proof. now rewrite !Zlength_correct, length_insert. Qed.

Lemma name_field_insert (b : list Z) (i : nat) (v : Z) :
  ~ (Z.to_nat 0x7FC0 <= i < Z.to_nat 0x7FD5)%nat ->
  name_field (<[i := v]> b) = name_field b.
Proof.
  intros Hi. unfold name_field. apply list_eq. intros k.
  destruct (decide (k < 21)%nat) as [Hk|Hk].
  - rewrite !lookup_take_lt, !lookup_drop by exact Hk.
    apply list_lookup_insert_ne. lia.
  - rewrite !lookup_take_ge by lia. reflexivity.
Qed.

Lemma isValidROM_conditions_insert (b : list Z) (i : nat) (v : Z) :
  ~ in_fields i ->
  isValidROM (<[i := v]> b) = true -> isValidROM b = true.
Proof.
  intros Hi. rewrite !isValidROM_true_iff, Zlength_insert.
  intros (HL & HN & HC). split; [exact HL|].
  unfold in_fields in Hi.
  rewrite slice_name_field in HN by now rewrite Zlength_insert.
  rewrite name_field_insert in HN by lia.
  rewrite !index_lookup in HC by lia.
  rewrite !list_lookup_insert_ne in HC by lia.
  rewrite slice_name_field by exact HL.
  rewrite !index_lookup by lia. split; assumption.
Qed.

(** X4. The validator looks at nothing but the length and the two
    fields: writing any value at a position outside the name field and
    the checksum leaves its verdict unchanged, whatever the input. *)
Theorem isValidROM_other_bytes (b : list Z) (i : nat) (v : Z) :
  ~ in_fields i -> isValidROM (<[i := v]> b) = isValidROM b.
Proof.
  intros Hi.
  destruct (isValidROM (<[i := v]> b)) eqn:Hnew.
  - symmetry. exact (isValidROM_conditions_insert b i v Hi Hnew).
  - destruct (isValidROM b) eqn:Hold; [|reflexivity].
    destruct (lookup_lt_is_Some_2 b i) as [w Hw].
    { pose proof (isValidROM_length b Hold) as Hlen.
      destruct (decide (i < length b)%nat); [assumption|].
      rewrite list_insert_ge in Hnew by lia. congruence. }
    assert (Hback : <[i := w]> (<[i := v]> b) = b).
    { rewrite list_insert_insert_eq. now apply list_insert_id. }
    rewrite <- Hback in Hold.
    apply isValidROM_conditions_insert in Hold; [congruence | exact Hi].
Qed.

Lemma isValidROM_other_bytes_witness :
  isValidROM (<[0%nat := 255]> goodROM) = isValidROM goodROM.
Proof.
  apply (isValidROM_other_bytes goodROM 0 255).
  unfold in_fields. lia.
Defined.

(** ** More on the page controller *)

(** The status line after [updateStatusMessage], by the text class. *)
Lemma updateStatusMessage_icon (message textClass : string) (p : page) :
  exists p',
    updateStatusMessage message textClass p = Returns tt p' /\
    innerText (el_statusMessage p') = message /\
    ("text-success" ∈ classList (el_statusIcon p') <-> textClass = "success"%string) /\
    ("text-danger" ∈ classList (el_statusIcon p') <-> textClass = "danger"%string) /\
    ("d-none" ∈ classList (el_statusIcon p')
     <-> textClass <> "success"%string /\ textClass <> "danger"%string) /\
    same_but_status p p'.
Proof.
  unfold updateStatusMessage.
  cbv [mbind Script_bind modify].
  case_bool_decide as Hs; [|case_bool_decide as Hd];
    (eexists; split; [reflexivity|]);
    cbn [on_statusMessage on_statusIcon set_innerText classList_remove
         classList_add el_statusMessage el_statusIcon innerText classList
         list_to_set foldr];
    (split; [reflexivity|]);
    (repeat split; try (set_unfold; intuition congruence; fail)).
Qed.

Lemma updateStatusMessage_again (m1 c1 m2 c2 : string) (p : page) :
  (updateStatusMessage m1 c1;; updateStatusMessage m2 c2) p
  = updateStatusMessage m2 c2 p.
Proof.
  unfold updateStatusMessage.
  cbv [mbind Script_bind modify].
  repeat case_bool_decide;
    cbv [on_statusMessage on_statusIcon set_innerText classList_remove
         classList_add el_statusMessage el_statusIcon innerText classList
         localStorage el_fileButton el_generate el_generateSpinner
         el_generateText el_seed el_itemDuplication el_spoilerLog
         fileName_files worker_posted disabled value checked];
    do 2 f_equal; f_equal; cbn [list_to_set foldr]; set_unfold;
    intros x;
    destruct (decide (x = "d-none"%string)),
      (decide (x = "text-success"%string)),
      (decide (x = "text-danger"%string)); subst; intuition congruence.
Qed.

(** X5. [updateStatusMessage] sets the status line from its arguments
    alone: the message is shown, the icon carries [text-success] exactly
    for the class "success", [text-danger] exactly for "danger" and is
    hidden exactly for any other class, nothing else on the page changes,
    and a call made after another leaves the page the last call alone
    would have left. *)
Theorem updateStatusMessage_last_wins (m1 c1 message textClass : string) (p : page) :
  (exists p',
    updateStatusMessage message textClass p = Returns tt p' /\
    innerText (el_statusMessage p') = message /\
    ("text-success" ∈ classList (el_statusIcon p') <-> textClass = "success"%string) /\
    ("text-danger" ∈ classList (el_statusIcon p') <-> textClass = "danger"%string) /\
    ("d-none" ∈ classList (el_statusIcon p')
     <-> textClass <> "success"%string /\ textClass <> "danger"%string) /\
    same_but_status p p') /\
  (updateStatusMessage m1 c1;; updateStatusMessage message textClass) p
  = updateStatusMessage message textClass p.
Proof.
  split.
  - apply updateStatusMessage_icon.
  - apply updateStatusMessage_again.
Qed.

Lemma status_plain_cleared (p : page) : status_cleared (status_plain "" p).
Proof.
  unfold status_cleared, status_plain.
  cbn [on_statusMessage on_statusIcon set_innerText classList_remove
       classList_add el_statusMessage el_statusIcon innerText classList].
  repeat split. set_unfold. tauto.
Qed.

Lemma prefixed_inj (k k' : string) : prefixed k = prefixed k' -> k = k'.
Proof.
  unfold prefixed. intros H.
  apply append_inj_l in H. now apply (append_inj_l "___") in H.
Qed.

(** X6. What [storageWrapper.setItem] stores under a key,
    [storageWrapper.getItem] returns for that key and for no other, and
    after [storageWrapper.removeItem] it returns nothing; the wrapper
    reaches the store only under prefixed keys, so every other entry of
    the store stays as it is. *)
Theorem storageWrapper_round_trip (backend : setItem_behaviour) (p : page)
    (keyName keyValue : string) :
  backend (localStorage p) (prefixed keyName) keyValue
  = (<[prefixed keyName := keyValue]> (localStorage p), None) ->
  exists p1 p2,
    storageWrapper_setItem backend keyName keyValue p = Returns tt p1 /\
    storageWrapper_getItem keyName p1 = Returns (Some keyValue) p1 /\
    (forall other, other <> keyName ->
       storageWrapper_getItem other p1
       = Returns (localStorage p !! prefixed other) p1) /\
    storageWrapper_removeItem keyName p1 = Returns tt p2 /\
    storageWrapper_getItem keyName p2 = Returns None p2 /\
    (forall key, key <> prefixed keyName ->
       localStorage p2 !! key = localStorage p !! key).
Proof.
  intros Hset. unfold storageWrapper_setItem, storageWrapper_getItem,
    storageWrapper_removeItem.
  cbv [mbind Script_bind get_page mret Script_ret modify]. rewrite Hset.
  cbv [mbind Script_bind get_page mret Script_ret modify].
  eexists _, _. split; [reflexivity|].
  cbn [localStorage with_localStorage].
  split; [now rewrite lookup_insert_eq|].
  split.
  { intros other Hne. rewrite lookup_insert_ne; [reflexivity|].
    intros H. apply prefixed_inj in H. congruence. }
  split; [reflexivity|].
  cbn [localStorage with_localStorage].
  split; [now rewrite lookup_delete_eq|].
  intros key Hne. rewrite lookup_delete_ne, lookup_insert_ne by congruence.
  reflexivity.
Qed.

Lemma storageWrapper_round_trip_witness :
  let backend := quota_backend 10 in
  let p := page_with {[ "theme"%string := "dark"%string ]} "" [] in
  exists p1 p2,
    storageWrapper_setItem backend "rom_base64" "TQ==" p = Returns tt p1 /\
    storageWrapper_getItem "rom_base64" p1 = Returns (Some "TQ=="%string) p1 /\
    (forall other, other <> "rom_base64"%string ->
       storageWrapper_getItem other p1
       = Returns (localStorage p !! prefixed other) p1) /\
    storageWrapper_removeItem "rom_base64" p1 = Returns tt p2 /\
    storageWrapper_getItem "rom_base64" p2 = Returns None p2 /\
    (forall key, key <> prefixed "rom_base64" ->
       localStorage p2 !! key = localStorage p !! key).
Proof.
  intros backend p.
  apply (storageWrapper_round_trip backend p "rom_base64" "TQ==").
  reflexivity.
Defined.

(** [changeFileName] and [clearFileName], branch by branch. *)
Lemma changeFileName_without_files (backend : setItem_behaviour) (p : page) :
  fileName_files p = [] ->
  changeFileName backend p = Returns tt (status_plain "" p).
Proof.
  intros Hfiles. unfold changeFileName.
  cbv [mbind Script_bind get_page]. rewrite updateStatusMessage_plain.
  change (fileName_files (status_plain "" p)) with (fileName_files p).
  now rewrite Hfiles.
Qed.

Lemma changeFileName_set_returns (backend : setItem_behaviour) (p : page)
    (fileBytes : list Z) (rest : list (list Z)) (store' : gmap string string) :
  fileName_files p = fileBytes :: rest ->
  backend (localStorage p) (prefixed "rom_base64") (bytesToBase64 fileBytes)
  = (store', None) ->
  changeFileName backend p
  = updateFileButton (with_localStorage (fun _ => store') (status_plain "" p)).
Proof.
  intros Hfiles Hset. unfold changeFileName.
  cbv [mbind Script_bind get_page]. rewrite updateStatusMessage_plain.
  change (fileName_files (status_plain "" p)) with (fileName_files p).
  rewrite Hfiles.
  cbv [try_catch storageWrapper_setItem mbind Script_bind get_page].
  change (localStorage (status_plain "" p)) with (localStorage p).
  rewrite Hset. reflexivity.
Qed.

Lemma clearFileName_cases (p : page) :
  clearFileName p =
  Returns tt
    (button_shown NoImage
       (with_localStorage (delete (prefixed "rom_base64")) (status_plain "" p))).
Proof.
  unfold clearFileName.
  cbv [mbind Script_bind storageWrapper_removeItem modify].
  rewrite updateStatusMessage_plain, updateFileButton_cases.
  cbn [localStorage with_localStorage status_plain on_statusMessage on_statusIcon].
  now rewrite lookup_delete_eq.
Qed.

(** X7. When the store accepts the text, [changeFileName] leaves the
    chosen file's bytes stored as Base64 text, clears the status line, and
    shows the state of the chosen file: "ready" if the validator accepts
    its bytes, "invalid" if not. *)
Theorem changeFileName_stores (backend : setItem_behaviour) (p : page)
    (fileBytes : list Z) (rest : list (list Z)) (store' : gmap string string) :
  fileName_files p = fileBytes :: rest ->
  is_bytes fileBytes ->
  backend (localStorage p) (prefixed "rom_base64") (bytesToBase64 fileBytes)
  = (store', None) ->
  store' !! prefixed "rom_base64" = Some (bytesToBase64 fileBytes) ->
  exists p',
    changeFileName backend p = Returns tt p' /\
    localStorage p' = store' /\
    stored_image (localStorage p') = Some (Some fileBytes) /\
    shows_ui (if isValidROM fileBytes then ReadyImage else InvalidImage) p' /\
    status_cleared p'.
Proof.
  intros Hfiles Hb Hset Hstored.
  rewrite (changeFileName_set_returns _ _ _ _ _ Hfiles Hset).
  rewrite updateFileButton_cases.
  cbn [localStorage with_localStorage status_plain on_statusMessage on_statusIcon].
  rewrite Hstored, (encoded_text_decodes fileBytes Hb).
  eexists. split; [reflexivity|]. split; [reflexivity|]. split.
  { unfold stored_image. cbn [localStorage button_shown on_generate on_fileButton
      with_localStorage status_plain on_statusMessage on_statusIcon].
    now rewrite Hstored, (encoded_text_decodes fileBytes Hb). }
  split; [apply button_shown_ui|].
  exact (status_plain_cleared p).
Qed.

Lemma changeFileName_stores_witness :
  let backend := quota_backend 100 in
  let p := page_with ∅ "" [[83; 72; 65; 68; 79; 87]] in
  exists p',
    changeFileName backend p = Returns tt p' /\
    localStorage p' =
      <[prefixed "rom_base64" := bytesToBase64 [83; 72; 65; 68; 79; 87]]> ∅ /\
    stored_image (localStorage p') = Some (Some [83; 72; 65; 68; 79; 87]) /\
    shows_ui (if isValidROM [83; 72; 65; 68; 79; 87]
              then ReadyImage else InvalidImage) p' /\
    status_cleared p'.
Proof.
  intros backend p.
  apply (changeFileName_stores backend p [83; 72; 65; 68; 79; 87] []).
  - reflexivity.
  - unfold is_bytes. repeat constructor; lia.
  - vm_compute. reflexivity.
  - apply lookup_insert_eq.
Defined.

(** X8. With no file chosen, [changeFileName] clears the status line and
    does nothing else: the store is not written, whatever the store would
    have done, and the file button is not refreshed. *)
Theorem changeFileName_no_file (backend : setItem_behaviour) (p : page) :
  fileName_files p = [] ->
  exists p',
    changeFileName backend p = Returns tt p' /\
    status_cleared p' /\ same_but_status p p'.
Proof.
  intros Hfiles. rewrite (changeFileName_without_files backend p Hfiles).
  eexists. split; [reflexivity|]. split.
  - apply status_plain_cleared.
  - repeat split.
Qed.

Lemma changeFileName_no_file_witness :
  let backend : setItem_behaviour :=
    fun store _ _ => (store, Some (DOMException "SecurityError")) in
  let p := page_with {[ prefixed "rom_base64" := "TQ=="%string ]} "7" [] in
  exists p',
    changeFileName backend p = Returns tt p' /\
    status_cleared p' /\ same_but_status p p'.
Proof.
  intros backend p. apply (changeFileName_no_file backend p). reflexivity.
Defined.

(** X9. [clearFileName] always returns: it removes the record, also one
    that is not Base64 text, leaves every other entry of the store, clears
    the status line and shows the "no image" state with submission
    disabled. *)
Theorem clearFileName_clears (p : page) :
  exists p',
    clearFileName p = Returns tt p' /\
    localStorage p' = delete (prefixed "rom_base64") (localStorage p) /\
    stored_image (localStorage p') = Some None /\
    shows_ui NoImage p' /\
    status_cleared p'.
Proof.
  rewrite clearFileName_cases.
  eexists. split; [reflexivity|]. split; [reflexivity|]. split.
  { unfold stored_image. cbn [localStorage button_shown on_generate on_fileButton
      with_localStorage status_plain on_statusMessage on_statusIcon].
    now rewrite lookup_delete_eq. }
  split; [apply button_shown_ui|].
  exact (status_plain_cleared p).
Qed.

Lemma button_removed_no_state_class (p : page) :
  no_state_class
    (on_fileButton
       (classList_remove ["btn-success"; "btn-danger"; "btn-warning"]) p).
Proof.
  intros u.
  cbn [on_fileButton classList_remove el_fileButton classList list_to_set foldr].
  destruct u; simpl; set_unfold; tauto.
Qed.

(** X10. A record that is not Base64 text makes [updateFileButton] and
    [generate] throw [atob]'s InvalidCharacterError: the file button is
    left without any state class, with its old text and the old state of
    the submit control; [generate] posts nothing and leaves the status
    line cleared. *)
Theorem corrupt_record_throws (p : page) (text : string) :
  localStorage p !! prefixed "rom_base64" = Some text ->
  base64ToBytes text = None ->
  (exists p',
     updateFileButton p = Throws (DOMException "InvalidCharacterError") p' /\
     no_state_class p' /\
     innerText (el_fileButton p') = innerText (el_fileButton p) /\
     el_generate p' = el_generate p) /\
  (exists p',
     generate p = Throws (DOMException "InvalidCharacterError") p' /\
     worker_posted p' = worker_posted p /\
     status_cleared p' /\ same_but_status p p').
Proof.
  intros Hrec Hdec. split.
  - rewrite updateFileButton_cases, Hrec, Hdec.
    eexists. split; [reflexivity|].
    split; [apply button_removed_no_state_class|]. split; reflexivity.
  - rewrite generate_cases, Hrec, Hdec.
    eexists. split; [reflexivity|]. split; [reflexivity|].
    split; [apply status_plain_cleared | repeat split].
Qed.

Lemma corrupt_record_throws_witness :
  let p := page_with {[ prefixed "rom_base64" := "not base64!"%string ]} "42" [] in
  (exists p',
     updateFileButton p = Throws (DOMException "InvalidCharacterError") p' /\
     no_state_class p' /\
     innerText (el_fileButton p') = innerText (el_fileButton p) /\
     el_generate p' = el_generate p) /\
  (exists p',
     generate p = Throws (DOMException "InvalidCharacterError") p' /\
     worker_posted p' = worker_posted p /\
     status_cleared p' /\ same_but_status p p').
Proof.
  intros p. apply (corrupt_record_throws p "not base64!"); reflexivity.
Defined.

(** [downloadSeed] in one step. *)
Lemma downloadSeed_cases (event_data : generatedSeed) (p : page) :
  downloadSeed event_data p =
  Returns (Download (zipFileName event_data) "application/zip" (zipBytes event_data))
          (generated (success_message (attemptNumber event_data)) p).
Proof. reflexivity. Qed.

Lemma updateFileButton_store (p : page) :
  localStorage (final_page (updateFileButton p)) = localStorage p.
Proof.
  rewrite updateFileButton_cases.
  destruct (localStorage p !! prefixed "rom_base64") as [text|]; [|reflexivity].
  destruct (base64ToBytes text); reflexivity.
Qed.

Lemma generate_store (p : page) :
  localStorage (final_page (generate p)) = localStorage p.
Proof.
  rewrite generate_cases.
  destruct (localStorage p !! prefixed "rom_base64") as [text|]; [|reflexivity].
  destruct (base64ToBytes text) as [bytes|]; [|reflexivity].
  destruct (isValidROM bytes); [|reflexivity].
  cbv zeta. destruct (integerRegex_test _); reflexivity.
Qed.

(** X11. The scripts reach the store under the image key only.
    [updateFileButton], [generate], [newSeed] and [downloadSeed] leave the
    whole store as it is; [clearFileName] changes nothing but the image
    key; after [changeFileName] every other key holds what the store's
    [setItem] left there. *)
Theorem scripts_keep_other_keys (backend : setItem_behaviour) (p : page)
    (r : unit_double) (event_data : generatedSeed) :
  localStorage (final_page (updateFileButton p)) = localStorage p /\
  localStorage (final_page (generate p)) = localStorage p /\
  localStorage (final_page (newSeed r p)) = localStorage p /\
  localStorage (final_page (downloadSeed event_data p)) = localStorage p /\
  (forall key, key <> prefixed "rom_base64" ->
     localStorage (final_page (clearFileName p)) !! key = localStorage p !! key) /\
  (forall key, key <> prefixed "rom_base64" ->
     localStorage (final_page (changeFileName backend p)) !! key =
     match fileName_files p with
     | [] => localStorage p !! key
     | fileBytes :: _ =>
         (backend (localStorage p) (prefixed "rom_base64")
            (bytesToBase64 fileBytes)).1 !! key
     end).
Proof.
  split; [apply updateFileButton_store|].
  split; [apply generate_store|].
  split; [reflexivity|]. split; [reflexivity|]. split.
  - intros key Hkey. rewrite clearFileName_cases.
    cbn [final_page localStorage button_shown on_generate on_fileButton
         with_localStorage status_plain on_statusMessage on_statusIcon].
    now apply lookup_delete_ne.
  - intros key Hkey.
    destruct (fileName_files p) as [|fileBytes rest] eqn:Hfiles.
    + now rewrite (changeFileName_without_files backend p Hfiles).
    + destruct (backend (localStorage p) (prefixed "rom_base64")
                  (bytesToBase64 fileBytes)) as [store' [e|]] eqn:Hset.
      * rewrite (changeFileName_set_throws _ _ _ _ _ _ Hfiles Hset).
        case_bool_decide; cbn [final_page localStorage button_shown on_generate
          on_fileButton with_localStorage status_danger status_plain
          on_statusMessage on_statusIcon fst]; [|reflexivity].
        now apply lookup_delete_ne.
      * rewrite (changeFileName_set_returns _ _ _ _ _ Hfiles Hset).
        rewrite updateFileButton_store. reflexivity.
Qed.

Lemma integerRegex_nonempty (s : string) :
  integerRegex_test s = true -> s <> ""%string.
Proof. intros H ->. discriminate. Qed.

Lemma generate_posts (p : page) (m : randomizerArgs) :
  worker_posted (final_page (generate p)) = worker_posted p ++ [m] ->
  exists text,
    localStorage p !! prefixed "rom_base64" = Some text /\
    base64ToBytes text = Some (romBytes m) /\
    isValidROM (romBytes m) = true /\
    seedString m = trim (value (el_seed p)) /\
    integerRegex_test (seedString m) = true /\
    itemDuplication m = checked (el_itemDuplication p) /\
    spoilerLog m = checked (el_spoilerLog p).
Proof.
  rewrite generate_cases.
  destruct (localStorage p !! prefixed "rom_base64") as [text|];
    [|intros H; symmetry in H; now apply append_one_ne in H].
  destruct (base64ToBytes text) as [bytes|] eqn:Hdec;
    [|intros H; symmetry in H; now apply append_one_ne in H].
  destruct (isValidROM bytes) eqn:Hv;
    [|intros H; symmetry in H; now apply append_one_ne in H].
  cbv zeta.
  destruct (integerRegex_test (trim (value (el_seed p)))) eqn:Hs;
    [|intros H; symmetry in H; now apply append_one_ne in H].
  cbn [final_page worker_posted postMessage generating status_plain
       on_statusMessage on_statusIcon on_generateText on_generateSpinner
       on_generate].
  intros H. apply app_inj_tail in H as [_ <-]. exists text.
  cbn [romBytes seedString itemDuplication spoilerLog].
  repeat split; assumption.
Qed.

(** X12. Every job [generate] posts carries bytes the validator accepts
    and a seed of digits, so the vector the worker builds for it always
    has the seed: the script's name, [--dry-run], [--seed] and the seed,
    the flags that are checked on the page, [--] and the image's path. *)
Theorem generate_job_argv (p : page) (m : randomizerArgs) :
  worker_posted (final_page (generate p)) = worker_posted p ++ [m] ->
  isValidROM (romBytes m) = true /\
  integerRegex_test (seedString m) = true /\
  mockArgv m =
    ["shadowrun_randomizer.py"; "--dry-run"; "--seed"; trim (value (el_seed p))]
    ++ (if checked (el_itemDuplication p) then ["--allow-item-duplication"] else [])
    ++ (if checked (el_spoilerLog p) then ["--spoiler-log"] else [])
    ++ ["--"; romFileName].
Proof.
  intros Hpost.
  destruct (generate_posts p m Hpost) as (text & _ & _ & Hv & Hseed & Hs & Hd & Hl).
  split; [exact Hv|]. split; [exact Hs|].
  unfold mockArgv. rewrite <- Hseed, <- Hd, <- Hl.
  rewrite bool_decide_eq_false_2 by now apply integerRegex_nonempty.
  destruct (itemDuplication m), (spoilerLog m); reflexivity.
Qed.

Lemma generate_job_argv_witness :
  let p := ready_page " 42 " in
  let m := RandomizerArgs goodROM "42" false false in
  isValidROM (romBytes m) = true /\
  integerRegex_test (seedString m) = true /\
  mockArgv m =
    ["shadowrun_randomizer.py"; "--dry-run"; "--seed"; trim (value (el_seed p))]
    ++ (if checked (el_itemDuplication p) then ["--allow-item-duplication"] else [])
    ++ (if checked (el_spoilerLog p) then ["--spoiler-log"] else [])
    ++ ["--"; romFileName].
Proof.
  intros p m. apply (generate_job_argv p m). exact generate_ready.
Defined.

(** ** Generation, from the click to the download *)

Lemma generate_accepted (p : page) (bytes : list Z) (seed : string) :
  submission_accepted p bytes seed ->
  generate p =
  Returns tt
    (postMessage
       (RandomizerArgs bytes seed (checked (el_itemDuplication p))
          (checked (el_spoilerLog p)))
       (generating p)).
Proof.
  intros ((text & Hrec & Hdec) & Hv & -> & Hs).
  rewrite generate_cases, Hrec, Hdec, Hv. cbv zeta. now rewrite Hs.
Qed.

Lemma generating_in_flight (m : randomizerArgs) (p : page) :
  in_flight (postMessage m (generating p)).
Proof.
  unfold in_flight, generating, status_plain.
  cbn [postMessage on_statusMessage on_statusIcon on_generateText
       on_generateSpinner on_generate set_disabled set_innerText
       classList_remove el_generate el_generateSpinner el_generateText
       disabled classList innerText list_to_set foldr].
  repeat split. set_unfold. tauto.
Qed.

Lemma generated_idle (message : string) (p : page) :
  idle (generated message p).
Proof.
  unfold idle, generated, status_success.
  cbn [on_statusMessage on_statusIcon on_generateText on_generateSpinner
       on_generate set_disabled set_innerText classList_add
       el_generate el_generateSpinner el_generateText
       disabled classList innerText].
  repeat split. set_unfold. tauto.
Qed.

Lemma generated_success (message : string) (p : page) :
  shows_success message (generated message p).
Proof.
  unfold shows_success, generated, status_success.
  cbn [on_statusMessage on_statusIcon on_generateText on_generateSpinner
       on_generate set_innerText classList_remove classList_add
       el_statusMessage el_statusIcon innerText classList list_to_set foldr].
  repeat split; set_unfold; intuition congruence.
Qed.

Lemma element_eta (e : element) :
  Element (classList e) (innerText e) (disabled e) (value e) (checked e) = e.
Proof. now destruct e. Qed.

(** The submit control, the spinner and the label of the button after a
    generation that started on an idle page. *)
Lemma generation_restores_controls (message : string) (m : randomizerArgs)
    (p : page) :
  idle p ->
  let p2 := generated message (postMessage m (generating p)) in
  el_generate p2 = el_generate p /\
  el_generateSpinner p2 = el_generateSpinner p /\
  el_generateText p2 = el_generateText p.
Proof.
  intros (Hd & Hs & Ht) p2. unfold p2, generated, status_success, generating,
    status_plain.
  cbn [postMessage on_statusMessage on_statusIcon on_generateText
       on_generateSpinner on_generate el_generate el_generateSpinner
       el_generateText].
  unfold set_disabled, set_innerText, classList_add, classList_remove.
  cbn [classList innerText disabled value checked list_to_set foldr].
  split; [|split].
  - rewrite <- Hd. apply element_eta.
  - rewrite <- (element_eta (el_generateSpinner p)) at 6. f_equal.
    set_unfold. intros x.
    destruct (decide (x = "d-none"%string)); subst; intuition congruence.
  - rewrite <- Ht. apply element_eta.
Qed.

(** X13. A generation takes the submit control into its "Generating..."
    mode and back.  On a page whose control is idle, an accepted [generate]
    disables the control, shows the spinner and the label "Generating...";
    the [downloadSeed] that answers it hands the browser the archive under
    its name, restores the control, the spinner and the label to what they
    were, and reports the attempt number as a success. *)
Theorem generate_then_downloadSeed (p : page) (bytes : list Z) (seed : string)
    (event_data : generatedSeed) :
  submission_accepted p bytes seed ->
  idle p ->
  exists p1 p2,
    generate p = Returns tt p1 /\
    in_flight p1 /\
    downloadSeed event_data p1 =
      Returns (Download (zipFileName event_data) "application/zip"
                 (zipBytes event_data)) p2 /\
    idle p2 /\
    el_generate p2 = el_generate p /\
    el_generateSpinner p2 = el_generateSpinner p /\
    el_generateText p2 = el_generateText p /\
    shows_success (success_message (attemptNumber event_data)) p2.
Proof.
  intros Hacc Hidle. rewrite (generate_accepted p bytes seed Hacc).
  eexists _, _. split; [reflexivity|].
  split; [apply generating_in_flight|].
  rewrite downloadSeed_cases. split; [reflexivity|].
  split; [apply generated_idle|].
  destruct (generation_restores_controls
              (success_message (attemptNumber event_data))
              (RandomizerArgs bytes seed (checked (el_itemDuplication p))
                 (checked (el_spoilerLog p))) p Hidle) as (H1 & H2 & H3).
  split; [exact H1|]. split; [exact H2|]. split; [exact H3|].
  apply generated_success.
Qed.

Lemma ready_page_idle_accepted :
  submission_accepted (ready_page_idle "42") goodROM "42".
Proof.
  split; [|split; [exact isValidROM_goodROM | split; reflexivity]].
  exists (bytesToBase64 goodROM). split.
  - exact (ready_page_record "42").
  - exact goodROM_text_decodes.
Qed.

Lemma ready_page_idle_idle : idle (ready_page_idle "42").
Proof.
  unfold idle, ready_page_idle.
  cbn [on_generateSpinner on_generateText el_generate el_generateSpinner
       el_generateText classList_add set_innerText classList innerText].
  repeat split; try (set_unfold; tauto).
Qed.

Lemma generate_then_downloadSeed_witness :
  let p := ready_page_idle "42" in
  let event_data := GeneratedSeed [] "seed.zip" 3 in
  exists p1 p2,
    generate p = Returns tt p1 /\
    in_flight p1 /\
    downloadSeed event_data p1 =
      Returns (Download (zipFileName event_data) "application/zip"
                 (zipBytes event_data)) p2 /\
    idle p2 /\
    el_generate p2 = el_generate p /\
    el_generateSpinner p2 = el_generateSpinner p /\
    el_generateText p2 = el_generateText p /\
    shows_success (success_message (attemptNumber event_data)) p2.
Proof.
  intros p event_data.
  apply (generate_then_downloadSeed p goodROM "42" event_data).
  - exact ready_page_idle_accepted.
  - exact ready_page_idle_idle.
Defined.

(** X14. [downloadSeed] does not look at the store: on every page it
    hands over the download, reports success and enables submission while
    the store and the file button stay as they are, so submission can be
    enabled on a page that shows "No ROM selected".  The enabled control
    is no way past the checks: with no record stored, a [generate] on that
    page shows "No ROM selected" and posts nothing. *)
Theorem downloadSeed_enables (event_data : generatedSeed) (p : page) :
  exists p',
    downloadSeed event_data p =
      Returns (Download (zipFileName event_data) "application/zip"
                 (zipBytes event_data)) p' /\
    idle p' /\
    shows_success (success_message (attemptNumber event_data)) p' /\
    localStorage p' = localStorage p /\
    el_fileButton p' = el_fileButton p /\
    worker_posted p' = worker_posted p /\
    (localStorage p !! prefixed "rom_base64" = None ->
     rejected_with "No ROM selected" p' (generate p')).
Proof.
  rewrite downloadSeed_cases. eexists. split; [reflexivity|].
  split; [apply generated_idle|]. split; [apply generated_success|].
  split; [reflexivity|]. split; [reflexivity|]. split; [reflexivity|].
  intros Hrec. rewrite generate_cases.
  change (localStorage (generated (success_message (attemptNumber event_data)) p))
    with (localStorage p).
  rewrite Hrec. apply generate_rejected.
Qed.

(** X15. From the click to the download.  For an accepted submission the
    script is run on the stored, validated image and the vector built from
    the trimmed seed and the two check boxes.  When the job completes,
    whatever the script has returned, the download the user gets is the
    archive [<basename>.zip] with two members made from the script's
    output and named [<basename>.sfc] and [<basename>.txt], each cut at its
    first NUL: they are these names in full when the basename has no NUL.
    The status line reports the script's attempt number. *)
Theorem generation_end_to_end
    (script : list string -> list (string * list Z) -> script_run)
    (p : page) (bytes : list Z) (seed : string) (reply : generatedSeed) :
  submission_accepted p bytes seed ->
  let m := RandomizerArgs bytes seed (checked (el_itemDuplication p))
             (checked (el_spoilerLog p)) in
  let run := script (mockArgv m) [(romFileName, bytes)] in
  let basename := newBasename (outFileName run) in
  runRandomizer script m = inr reply ->
  exists p1 p2,
    generate p = Returns tt p1 /\
    worker_posted p1 = worker_posted p ++ [m] /\
    downloadSeed reply p1 =
      Returns
        (Download (basename +:+ ".zip") "application/zip"
           [(until_NUL (basename +:+ ".sfc"), Bytes (module_romBytes run));
            (until_NUL (basename +:+ ".txt"), Text (capturedOutput run))])
        p2 /\
    (no_NUL basename ->
     until_NUL (basename +:+ ".sfc") = basename +:+ ".sfc" /\
     until_NUL (basename +:+ ".txt") = basename +:+ ".txt") /\
    shows_success (success_message (module_attemptNumber run)) p2 /\
    localStorage p2 = localStorage p.
Proof.
  intros Hacc m run basename Hdone.
  apply package_completed in Hdone. fold run basename in Hdone. subst reply.
  rewrite (generate_accepted p bytes seed Hacc).
  eexists _, _. split; [reflexivity|]. split; [reflexivity|].
  rewrite downloadSeed_cases. split; [reflexivity|].
  split; [|split; [apply generated_success | reflexivity]].
  intros Hb. now rewrite !(until_NUL_append _ _ Hb).
Qed.

Lemma generation_end_to_end_witness :
  let script : list string -> list (string * list Z) -> script_run :=
    fun argv files => ScriptRun "Shadowrun_42.sfc" [1; 2; 3] 7 "Seed: 42" in
  let p := ready_page_idle "42" in
  let m := RandomizerArgs goodROM "42" (checked (el_itemDuplication p))
             (checked (el_spoilerLog p)) in
  let reply :=
    GeneratedSeed
      [("Shadowrun_42.sfc"%string, Bytes [1; 2; 3]);
       ("Shadowrun_42.txt"%string, Text "Seed: 42")]
      "Shadowrun_42.zip" 7 in
  runRandomizer script m = inr reply /\
  exists p1 p2,
    generate p = Returns tt p1 /\
    worker_posted p1 = worker_posted p ++ [m] /\
    downloadSeed reply p1 =
      Returns
        (Download "Shadowrun_42.zip" "application/zip"
           [("Shadowrun_42.sfc"%string, Bytes [1; 2; 3]);
            ("Shadowrun_42.txt"%string, Text "Seed: 42")])
        p2 /\
    shows_success (success_message 7) p2 /\
    localStorage p2 = localStorage p.
Proof.
  intros script p m reply. split; [reflexivity|].
  destruct (generation_end_to_end script p goodROM "42" reply
              ready_page_idle_accepted eq_refl)
    as (p1 & p2 & Hg & Hw & Hd & _ & Hs & Hl).
  exists p1, p2.
  split; [exact Hg|]. split; [exact Hw|]. split; [exact Hd|].
  split; [exact Hs | exact Hl].
Defined.

(** X20. A fresh seed goes into the job as it is: with a record stored
    that the validator accepts, a [generate] that follows [newSeed] posts
    one job whose seed is the decimal text of [Math.trunc(r * 2**32)],
    for every value [r] of [Math.random()]. *)
Theorem newSeed_then_generate (r : unit_double) (p : page) (text : string)
    (bytes : list Z) :
  unit_double_wf r ->
  localStorage p !! prefixed "rom_base64" = Some text ->
  base64ToBytes text = Some bytes ->
  isValidROM bytes = true ->
  exists p1 p2,
    newSeed r p = Returns tt p1 /\
    generate p1 = Returns tt p2 /\
    worker_posted p2 =
      worker_posted p ++
        [RandomizerArgs bytes (Number_toString (trunc_scaled r))
           (checked (el_itemDuplication p)) (checked (el_spoilerLog p))].
Proof.
  intros Hr Hrec Hdec Hv. rewrite newSeed_page.
  eexists _, _. split; [reflexivity|].
  pose proof (trunc_scaled_range r Hr) as [Hn _].
  destruct (Number_toString_digits _ Hn) as (c & cs & Hs & Hd).
  rewrite generate_cases.
  cbn [localStorage el_seed on_seed set_value value status_plain
       on_statusMessage on_statusIcon].
  rewrite Hrec, Hdec, Hv. cbv zeta.
  rewrite (trim_digits _ c cs Hs Hd).
  assert (Hok : integerRegex_test (Number_toString (trunc_scaled r)) = true).
  { unfold integerRegex_test. rewrite Hs. exact Hd. }
  rewrite Hok. split; reflexivity.
Qed.

Lemma newSeed_then_generate_witness :
  let r := UnitDouble 1 1 in
  let p := ready_page "" in
  exists p1 p2,
    newSeed r p = Returns tt p1 /\
    generate p1 = Returns tt p2 /\
    worker_posted p2 =
      worker_posted p ++
        [RandomizerArgs goodROM (Number_toString (trunc_scaled r))
           (checked (el_itemDuplication p)) (checked (el_spoilerLog p))].
Proof.
  intros r p.
  apply (newSeed_then_generate r p (bytesToBase64 goodROM) goodROM).
  - unfold unit_double_wf, r. simpl. lia.
  - exact (ready_page_record "").
  - exact goodROM_text_decodes.
  - exact isValidROM_goodROM.
Defined.

(** ** More on the worker *)






Lemma fetchFile_ok (fetch : string -> fetched (list Z)) (fileName : string)
    (fs : FS) (r : response (list Z)) :
  fetch fileName = Responded r -> ok r = true ->
  fetchFile fetch fileName fs = inr (<[fileName := body r]> fs).
Proof. intros Hf Hok. unfold fetchFile. now rewrite Hf, Hok. Qed.

Lemma fetchFile_not_ok (fetch : string -> fetched (list Z)) (fileName : string)
    (fs : FS) (r : response (list Z)) :
  fetch fileName = Responded r -> ok r = false ->
  fetchFile fetch fileName fs = inl (fetch_error fileName (status r)).
Proof. intros Hf Hok. unfold fetchFile. now rewrite Hf, Hok. Qed.

(** X17. The worker's bootstrap and the jobs that await it.  When both
    resources are fetched, the runtime's file system holds the randomizer
    script and the auxiliary resource under their names, its other files
    are untouched, and a job runs the script on these two files plus the
    image it writes under [shadowrun.sfc].  When the response for the
    script is not ok, the bootstrap throws the error that names the script
    and the status, whatever the other fetch would give; when only the
    response for the auxiliary resource is not ok, it throws the error
    naming that one.  A failed bootstrap fails every job with the
    bootstrap's exception. *)
Theorem loadPyodideAndFiles_outcome (fs : FS)
    (fetch : string -> fetched (list Z)) :
  let script_file := "shadowrun_randomizer.py"%string in
  let aux_file := "initial_item_state.bin"%string in
  (forall r1 r2,
      fetch script_file = Responded r1 -> ok r1 = true ->
      fetch aux_file = Responded r2 -> ok r2 = true ->
      exists fs',
        loadPyodideAndFiles (inr fs) fetch = inr fs' /\
        fs' !! script_file = Some (body r1) /\
        fs' !! aux_file = Some (body r2) /\
        (forall name, name <> script_file -> name <> aux_file ->
                      fs' !! name = fs !! name) /\
        forall script args,
          let job_fs := written_over fs' [(romFileName, romBytes args)] in
          runRandomizer_awaiting (inr fs') script args
          = inr (package (script (mockArgv args) job_fs)) /\
          job_fs !! script_file = Some (body r1) /\
          job_fs !! aux_file = Some (body r2) /\
          job_fs !! romFileName = Some (romBytes args)) /\
  (forall r1,
      fetch script_file = Responded r1 -> ok r1 = false ->
      loadPyodideAndFiles (inr fs) fetch
      = inl (fetch_error script_file (status r1))) /\
  (forall r1 r2,
      fetch script_file = Responded r1 -> ok r1 = true ->
      fetch aux_file = Responded r2 -> ok r2 = false ->
      loadPyodideAndFiles (inr fs) fetch
      = inl (fetch_error aux_file (status r2))) /\
  (forall loaded e,
      loadPyodideAndFiles loaded fetch = inl e ->
      forall script args,
        runRandomizer_awaiting (loadPyodideAndFiles loaded fetch) script args
        = inl e).
Proof.
  intros script_file aux_file. repeat apply conj.
  - intros r1 r2 H1 Hok1 H2 Hok2. unfold loadPyodideAndFiles.
    fold script_file aux_file.
    rewrite (fetchFile_ok _ _ _ _ H1 Hok1), (fetchFile_ok _ _ _ _ H2 Hok2).
    eexists. split; [reflexivity|].
    split; [now rewrite lookup_insert_ne, lookup_insert_eq|].
    split; [now rewrite lookup_insert_eq|].
    split.
    { intros name Hn1 Hn2. now rewrite !lookup_insert_ne by congruence. }
    intros script args. split; [reflexivity|].
    unfold written_over. cbn [foldl].
    split; [now rewrite !lookup_insert_ne, lookup_insert_eq by discriminate|].
    split; [now rewrite lookup_insert_ne, lookup_insert_eq by discriminate|].
    now rewrite lookup_insert_eq.
  - intros r1 H1 Hok1. unfold loadPyodideAndFiles. fold script_file.
    now rewrite (fetchFile_not_ok _ _ _ _ H1 Hok1).
  - intros r1 r2 H1 Hok1 H2 Hok2. unfold loadPyodideAndFiles.
    fold script_file aux_file.
    now rewrite (fetchFile_ok _ _ _ _ H1 Hok1), (fetchFile_not_ok _ _ _ _ H2 Hok2).
  - intros loaded e He script args. now rewrite He.
Qed.

(** ** The version line and [main] *)

Lemma split_lines_first (s : list ascii) :
  exists l ls rest,
    split_lines s = l :: ls /\
    s = l ++ rest /\
    Forall (fun c => is_line_terminator c = false) l /\
    ((ls = [] /\ rest = []) \/
     exists t s', rest = t :: s' /\ is_line_terminator t = true /\
                  split_lines s' = ls).
Proof.
  induction s as [|c s IH].
  - exists [], [], []. repeat split; auto.
  - destruct IH as (l & ls & rest & Hs & Happ & Hl & Hrest).
    cbn [split_lines]. destruct (is_line_terminator c) eqn:Hc.
    + exists [], (split_lines s), (c :: s).
      repeat split; [constructor|]. right. exists c, s. auto.
    + rewrite Hs. exists (c :: l), ls, rest.
      split; [reflexivity|]. split; [now rewrite Happ|].
      split; [now constructor | exact Hrest].
Qed.

Lemma split_lines_app (a b : list ascii) (t : ascii) :
  is_line_terminator t = true ->
  split_lines (a ++ t :: b) = split_lines a ++ split_lines b.
Proof.
  intros Ht. induction a as [|c a IH].
  - cbn [app split_lines]. now rewrite Ht.
  - cbn [app split_lines]. rewrite IH.
    destruct (is_line_terminator c); [reflexivity|].
    destruct (split_lines_first a) as (l & ls & _ & -> & _). reflexivity.
Qed.

Lemma split_lines_plain (l : list ascii) :
  Forall (fun c => is_line_terminator c = false) l -> split_lines l = [l].
Proof.
  induction 1 as [|c l Hc _ IH]; [reflexivity|].
  cbn [split_lines]. now rewrite Hc, IH.
Qed.

Lemma first_match_app (ls1 ls2 : list (list ascii)) :
  first_match (ls1 ++ ls2) =
  match first_match ls1 with
  | Some v => Some v
  | None => first_match ls2
  end.
Proof.
  induction ls1 as [|l ls1 IH]; [reflexivity|].
  cbn [app first_match]. destruct (match_version_line l); [reflexivity | exact IH].
Qed.

Lemma first_match_Some (ls : list (list ascii)) (v : list ascii) :
  first_match ls = Some v -> exists l, In l ls /\ match_version_line l = Some v.
Proof.
  induction ls as [|l ls IH]; [discriminate|].
  cbn [first_match]. destruct (match_version_line l) as [w|] eqn:Hl.
  - intros [= ->]. exists l. split; [now left | exact Hl].
  - intros H. destruct (IH H) as (l' & Hin & Hm). exists l'. split; [now right | exact Hm].
Qed.

Lemma strip_prefix_app (pre x : list ascii) : strip_prefix pre (pre ++ x) = Some x.
Proof.
  induction pre as [|a pre IH]; [reflexivity|].
  cbn [app strip_prefix]. now rewrite Ascii.eqb_refl.
Qed.

Lemma strip_prefix_Some (pre l x : list ascii) :
  strip_prefix pre l = Some x -> l = pre ++ x.
Proof.
  revert l. induction pre as [|a pre IH]; intros l; cbn [strip_prefix].
  - now intros [= ->].
  - destruct l as [|b l]; [discriminate|].
    destruct (Ascii.eqb_spec a b) as [->|]; [|discriminate].
    intros H. cbn [app]. f_equal. now apply IH.
Qed.

Lemma strip_final_quote_app (v : list ascii) :
  strip_final_quote (v ++ [QUOTE]) = Some v.
Proof.
  unfold strip_final_quote. rewrite rev_unit, Ascii.eqb_refl.
  now rewrite rev_involutive.
Qed.

Lemma strip_final_quote_Some (l v : list ascii) :
  strip_final_quote l = Some v -> l = v ++ [QUOTE].
Proof.
  unfold strip_final_quote. destruct (rev l) as [|c r] eqn:E; [discriminate|].
  destruct (Ascii.eqb_spec c QUOTE) as [->|]; [|discriminate].
  intros [= <-]. rewrite <- (rev_involutive l), E. reflexivity.
Qed.

Lemma match_version_line_iff (l v : list ascii) :
  match_version_line l = Some v <-> l = version_prefix ++ v ++ [QUOTE].
Proof.
  unfold match_version_line. split.
  - destruct (strip_prefix version_prefix l) as [rest|] eqn:Hp; [|discriminate].
    cbn [mbind option_bind]. intros Hq.
    apply strip_prefix_Some in Hp. apply strip_final_quote_Some in Hq.
    now subst.
  - intros ->. rewrite strip_prefix_app. cbn [mbind option_bind].
    apply strip_final_quote_app.
Qed.

(** Where a line of a text lies in it. *)
Lemma split_lines_In (ls : list (list ascii)) :
  forall (s l0 l : list ascii),
    split_lines s = l0 :: ls -> In l (l0 :: ls) ->
    Forall (fun c => is_line_terminator c = false) l /\
    exists a b,
      s = a ++ l ++ b /\
      (a = [] \/ exists a0 t, a = a0 ++ [t] /\ is_line_terminator t = true) /\
      (b = [] \/ exists t b0, b = t :: b0 /\ is_line_terminator t = true).
Proof.
  induction ls as [|l1 ls IH]; intros s l0 l Hs Hin.
  - destruct Hin as [<-|[]].
    destruct (split_lines_first s) as (l' & ls' & rest & Hs' & Happ & Hl & Hrest).
    rewrite Hs in Hs'. injection Hs' as <- <-.
    split; [exact Hl|]. exists [], rest. split; [exact Happ|]. split; [now left|].
    destruct Hrest as [[_ ->]|(t & s' & -> & Ht & _)]; [now left|].
    right. eauto.
  - destruct (split_lines_first s) as (l' & ls' & rest & Hs' & Happ & Hl & Hrest).
    rewrite Hs in Hs'. injection Hs' as <- <-.
    destruct Hrest as [[Hnil _]|(t & s' & -> & Ht & Hs')]; [discriminate|].
    destruct Hin as [<-|Hin].
    + split; [exact Hl|]. exists [], (t :: s'). split; [exact Happ|].
      split; [now left|]. right. eauto.
    + destruct (IH s' l1 l Hs' Hin) as (Hline & a & b & -> & Ha & Hb).
      split; [exact Hline|].
      exists (l0 ++ t :: a), b. split; [now rewrite Happ, <- app_assoc|].
      split; [|exact Hb]. right.
      destruct Ha as [->|(a0 & t' & -> & Ht')].
      * exists l0, t. auto.
      * exists (l0 ++ t :: a0), t'. split; [|exact Ht'].
        now rewrite <- app_assoc.
Qed.

Lemma string_of_list_ascii_app (a b : list ascii) :
  string_of_list_ascii (a ++ b) = string_of_list_ascii a +:+ string_of_list_ascii b.
Proof.
  induction a as [|c a IH]; [reflexivity|].
  cbn [app string_of_list_ascii]. rewrite IH. reflexivity.
Qed.

Lemma version_line_chars (version : string) :
  list_ascii_of_string (version_line version)
  = version_prefix ++ list_ascii_of_string version ++ [QUOTE].
Proof.
  unfold version_line, version_prefix.
  rewrite list_ascii_of_append. cbn [list_ascii_of_string].
  rewrite list_ascii_of_append. cbn [list_ascii_of_string].
  now rewrite <- app_assoc.
Qed.

Lemma version_line_of_chars (v : list ascii) :
  string_of_list_ascii (version_prefix ++ v ++ [QUOTE])
  = version_line (string_of_list_ascii v).
Proof.
  rewrite <- (string_of_list_ascii_of_string (version_line _)).
  now rewrite version_line_chars, list_ascii_of_string_of_list_ascii.
Qed.

Lemma version_line_plain (version : string) :
  no_line_terminator version ->
  Forall (fun c => is_line_terminator c = false)
         (list_ascii_of_string (version_line version)).
Proof.
  intros Hv. rewrite version_line_chars.
  apply Forall_app. split; [unfold version_prefix; now repeat constructor|].
  apply Forall_app. split; [exact Hv | now repeat constructor].
Qed.

Lemma versionRegex_exec_None (text : string) :
  versionRegex_exec text = None ->
  first_match (split_lines (list_ascii_of_string text)) = None.
Proof.
  unfold versionRegex_exec.
  now destruct (first_match (split_lines (list_ascii_of_string text))).
Qed.

(** A text that has the version line as its first matching line. *)
Lemma versionRegex_exec_found (before version after : string) :
  ends_line before -> starts_line after ->
  no_line_terminator version ->
  versionRegex_exec before = None ->
  versionRegex_exec (before +:+ version_line version +:+ after) = Some version.
Proof.
  intros Hb Ha Hv Hnone. apply versionRegex_exec_None in Hnone.
  pose proof (version_line_plain version Hv) as Hline.
  assert (Hm : match_version_line (list_ascii_of_string (version_line version))
               = Some (list_ascii_of_string version))
    by (apply match_version_line_iff, version_line_chars).
  assert (Hrest : exists ls,
             split_lines (list_ascii_of_string (version_line version +:+ after))
             = list_ascii_of_string (version_line version) :: ls).
  { rewrite list_ascii_of_append.
    destruct Ha as [->|(t & a0 & -> & Ht)].
    - cbn [list_ascii_of_string]. rewrite app_nil_r, split_lines_plain by exact Hline.
      now exists [].
    - cbn [list_ascii_of_string].
      rewrite split_lines_app, split_lines_plain by assumption.
      eexists. reflexivity. }
  destruct Hrest as [ls Hrest].
  unfold versionRegex_exec.
  destruct Hb as [->|(b0 & t & -> & Ht)].
  - change ("" +:+ version_line version +:+ after)
      with (version_line version +:+ after).
    rewrite Hrest. cbn [first_match]. rewrite Hm.
    cbn [fmap option_fmap option_map].
    now rewrite string_of_list_ascii_of_string.
  - rewrite list_ascii_of_append in Hnone. cbn [list_ascii_of_string] in Hnone.
    rewrite split_lines_app, first_match_app in Hnone by exact Ht.
    destruct (first_match (split_lines (list_ascii_of_string b0))) eqn:Hb0;
      [discriminate|].
    rewrite !list_ascii_of_append. cbn [list_ascii_of_string].
    rewrite <- app_assoc. cbn [app].
    rewrite split_lines_app by exact Ht.
    rewrite <- list_ascii_of_append, Hrest, first_match_app, Hb0.
    cbn [first_match]. rewrite Hm. cbn [fmap option_fmap option_map].
    now rewrite string_of_list_ascii_of_string.
Qed.

(** Where the capture comes from. *)
Lemma versionRegex_exec_sound (text version : string) :
  versionRegex_exec text = Some version ->
  no_line_terminator version /\
  exists before after,
    text = before +:+ version_line version +:+ after /\
    ends_line before /\ starts_line after.
Proof.
  unfold versionRegex_exec.
  destruct (first_match (split_lines (list_ascii_of_string text))) as [v|] eqn:Hf;
    [|discriminate].
  cbn [fmap option_fmap option_map]. intros [= <-].
  apply first_match_Some in Hf as (l & Hin & Hm).
  apply match_version_line_iff in Hm. subst l.
  destruct (split_lines_first (list_ascii_of_string text))
    as (l0 & ls & _ & Hs & _).
  rewrite Hs in Hin.
  destruct (split_lines_In ls _ l0 _ Hs Hin) as (Hplain & a & b & Htext & Ha & Hb).
  split.
  - unfold no_line_terminator. rewrite list_ascii_of_string_of_list_ascii.
    apply Forall_app in Hplain as [_ Hplain].
    now apply Forall_app in Hplain as [Hplain _].
  - exists (string_of_list_ascii a), (string_of_list_ascii b). split.
    + rewrite <- (string_of_list_ascii_of_string text), Htext.
      rewrite (string_of_list_ascii_app a).
      rewrite (string_of_list_ascii_app (version_prefix ++ v ++ [QUOTE]) b).
      now rewrite version_line_of_chars.
    + split.
      * destruct Ha as [->|(a0 & t & -> & Ht)]; [now left|].
        right. exists (string_of_list_ascii a0), t.
        split; [apply string_of_list_ascii_app | exact Ht].
      * destruct Hb as [->|(t & b0 & -> & Ht)]; [now left|].
        right. exists t, (string_of_list_ascii b0). split; [reflexivity | exact Ht].
Qed.

(** X18. What the version pattern captures is the version of a version
    line of the text: a whole line [randomizerVersion = "<version>"], the
    version without a line terminator.  Conversely, when such a line
    comes after text that has no matching line, its version is what the
    pattern captures. *)
Theorem versionRegex_exec_line (text : string) :
  (forall version,
      versionRegex_exec text = Some version ->
      no_line_terminator version /\
      exists before after,
        text = before +:+ version_line version +:+ after /\
        ends_line before /\ starts_line after) /\
  (forall before version after,
      text = before +:+ version_line version +:+ after ->
      ends_line before -> starts_line after ->
      no_line_terminator version ->
      versionRegex_exec before = None ->
      versionRegex_exec text = Some version).
Proof.
  split.
  - intros version. apply versionRegex_exec_sound.
  - intros before version after ->. apply versionRegex_exec_found.
Qed.

Example versionRegex_exec_script :
  versionRegex_exec
    ("#!/usr/bin/env python3" +:+ String (ascii_of_nat 10)
       (version_line "2023-11-05" +:+ String (ascii_of_nat 13)
          (String (ascii_of_nat 10) "import argparse")))
  = Some "2023-11-05"%string.
Proof. reflexivity. Qed.

Example versionRegex_exec_indented :
  versionRegex_exec (" " +:+ version_line "1") = None.
Proof. reflexivity. Qed.

Example fetch_error_404 :
  fetch_error "shadowrun_randomizer.py" 404
  = JSError
      "Could not fetch 'shadowrun_randomizer.py'. HTTP response status code: 404".
Proof. reflexivity. Qed.

(** [main] once the script's text has arrived. *)
Lemma main_fetched (st : Z) (text : string) (r : unit_double) (d : document) :
  main (Responded (Response true st text)) r d =
  let version :=
    match versionRegex_exec text with
    | Some v => set_innerText v (el_version d)
    | None => el_version d
    end in
  match updateFileButton (doc_page d) with
  | Returns _ p1 =>
      DocReturns tt
        (Document
           (status_plain ""
              (on_seed (set_value (Number_toString (trunc_scaled r)))
                 (status_plain "" p1)))
           version
           (classList_add "d-none" (el_loading d))
           (classList_remove ["invisible"] (el_application d)))
  | Throws e p1 =>
      DocThrows e (Document p1 version (el_loading d) (el_application d))
  end.
Proof.
  unfold main.
  cbv [ok body status negb mbind DocScript_bind mret DocScript_ret on_page
       on_version on_loading on_application].
  destruct (versionRegex_exec text) as [v|];
    cbn [doc_page el_version el_loading el_application];
    (destruct (updateFileButton (doc_page d)) as [[] p1|e p1];
     [|reflexivity]);
    cbn [doc_page el_version el_loading el_application];
    rewrite newSeed_page; cbn [doc_page el_version el_loading el_application];
    rewrite updateStatusMessage_plain; reflexivity.
Qed.

Lemma seeded_page_accepted (r : unit_double) (p : page) :
  unit_double_wf r ->
  integerRegex_test
    (trim (value (el_seed
       (status_plain ""
          (on_seed (set_value (Number_toString (trunc_scaled r))) p))))) = true.
Proof.
  intros Hr.
  cbn [status_plain on_statusMessage on_statusIcon on_seed el_seed set_value value].
  apply Number_toString_accepted. now apply trunc_scaled_range.
Qed.

(** X19. What [main] leaves.  When fetching the randomizer script fails,
    or its response is not ok, [main] throws and the document stays as it
    was: the application is not revealed.  Otherwise the version element
    gets the version of the script's version line, or keeps its text when
    there is none; then, if the stored record can be decoded or there is
    none, the page shows the state of the stored image, the seed field
    holds a seed that [generate] accepts, the status line is clear, the
    loading notice is hidden and the application revealed, with the store
    untouched and nothing posted.  A record that is not Base64 text makes
    [main] throw with the loading notice still up and the application
    still hidden. *)
Theorem main_outcomes (r : unit_double) (d : document) :
  unit_double_wf r ->
  (forall e, main (Rejected e) r d = DocThrows e d) /\
  (forall st text,
      main (Responded (Response false st text)) r d
      = DocThrows (fetch_error "shadowrun_randomizer.py" st) d) /\
  (forall st text,
      let shown :=
        match versionRegex_exec text with
        | Some v => v
        | None => innerText (el_version d)
        end in
      match stored_image (localStorage (doc_page d)) with
      | Some image =>
          exists d',
            main (Responded (Response true st text)) r d = DocReturns tt d' /\
            innerText (el_version d') = shown /\
            shows_ui (ui_of_image image) (doc_page d') /\
            status_cleared (doc_page d') /\
            integerRegex_test (trim (value (el_seed (doc_page d')))) = true /\
            ("d-none" ∈ classList (el_loading d')) /\
            ("invisible" ∉ classList (el_application d')) /\
            localStorage (doc_page d') = localStorage (doc_page d) /\
            worker_posted (doc_page d') = worker_posted (doc_page d)
      | None =>
          exists d',
            main (Responded (Response true st text)) r d
            = DocThrows (DOMException "InvalidCharacterError") d' /\
            innerText (el_version d') = shown /\
            el_loading d' = el_loading d /\
            el_application d' = el_application d
      end).
Proof.
  intros Hr. split; [reflexivity|]. split; [reflexivity|].
  intros st text shown. rewrite main_fetched, updateFileButton_cases.
  assert (Hshown : innerText
            (match versionRegex_exec text with
             | Some v => set_innerText v (el_version d)
             | None => el_version d
             end) = shown).
  { unfold shown. now destruct (versionRegex_exec text). }
  unfold stored_image.
  destruct (localStorage (doc_page d) !! prefixed "rom_base64") as [record|].
  - destruct (base64ToBytes record) as [bytes|];
      cbn [fmap option_fmap option_map]; cbv zeta.
    + eexists. split; [reflexivity|].
      cbn [doc_page el_version el_loading el_application].
      split; [exact Hshown|].
      split; [apply (button_shown_ui (ui_of_image (Some bytes)))|].
      split; [apply status_plain_cleared|].
      split; [now apply seeded_page_accepted|].
      split; [cbn [classList_add classList]; set_unfold; tauto|].
      split; [cbn [classList_remove classList list_to_set foldr]; set_unfold; tauto|].
      split; reflexivity.
    + eexists. split; [reflexivity|].
      cbn [el_version el_loading el_application]. auto.
  - cbv zeta. eexists. split; [reflexivity|].
    cbn [doc_page el_version el_loading el_application].
    split; [exact Hshown|].
    split; [apply (button_shown_ui NoImage)|].
    split; [apply status_plain_cleared|].
    split; [now apply seeded_page_accepted|].
    split; [cbn [classList_add classList]; set_unfold; tauto|].
    split; [cbn [classList_remove classList list_to_set foldr]; set_unfold; tauto|].
    split; reflexivity.
Qed.

Lemma main_outcomes_witness :
  let r := UnitDouble 5 3 in
  let d := Document (page_with ∅ "" []) blank blank
             (classList_add "invisible" blank) in
  (forall e, main (Rejected e) r d = DocThrows e d) /\
  (forall st text,
      main (Responded (Response false st text)) r d
      = DocThrows (fetch_error "shadowrun_randomizer.py" st) d) /\
  (forall st text,
      let shown :=
        match versionRegex_exec text with
        | Some v => v
        | None => innerText (el_version d)
        end in
      match stored_image (localStorage (doc_page d)) with
      | Some image =>
          exists d',
            main (Responded (Response true st text)) r d = DocReturns tt d' /\
            innerText (el_version d') = shown /\
            shows_ui (ui_of_image image) (doc_page d') /\
            status_cleared (doc_page d') /\
            integerRegex_test (trim (value (el_seed (doc_page d')))) = true /\
            ("d-none" ∈ classList (el_loading d')) /\
            ("invisible" ∉ classList (el_application d')) /\
            localStorage (doc_page d') = localStorage (doc_page d) /\
            worker_posted (doc_page d') = worker_posted (doc_page d)
      | None =>
          exists d',
            main (Responded (Response true st text)) r d
            = DocThrows (DOMException "InvalidCharacterError") d' /\
            innerText (el_version d') = shown /\
            el_loading d' = el_loading d /\
            el_application d' = el_application d
      end).
Proof.
  intros r d. apply (main_outcomes r d).
  unfold unit_double_wf, r. simpl. lia.
Defined.
